(** * BPMP mailbox transport for Tegra210 (drivers/firmware/tegra/mail_t210.c)

    A shallow embedding of the channel token protocol, of the data return
    path and of the bring-up code (connect, doorbell registration), with the
    properties the transport's specification states about them. *)

From stdpp Require Import base numbers list gmap.
From Stdlib Require Import ZArith Lia Bool.

Local Open Scope Z_scope.

(** ** Machine integers *)

(** [u32]: conversion to a 32-bit unsigned integer. *)
Definition u32 (x : Z) : Z := x mod 2 ^ 32.

(** [s32]: conversion to a 32-bit two's complement [int]. *)
Definition s32 (x : Z) : Z := (x + 2 ^ 31) mod 2 ^ 32 - 2 ^ 31.

(** ** Channel numbering and register offsets *)

(** CPU to BPMP atomic channels *)
Definition CPU0_OB_CH0 : Z := 0.
Definition CPU1_OB_CH0 : Z := 1.
Definition CPU2_OB_CH0 : Z := 2.
Definition CPU3_OB_CH0 : Z := 3.

(** CPU to BPMP non-atomic channels *)
Definition CPU0_OB_CH1 : Z := 4.
Definition CPU1_OB_CH1 : Z := 5.
Definition CPU2_OB_CH1 : Z := 6.
Definition CPU3_OB_CH1 : Z := 7.

(** BPMP to CPU channels *)
Definition CPU0_IB_CH : Z := 8.
Definition CPU1_IB_CH : Z := 9.
Definition CPU2_IB_CH : Z := 10.
Definition CPU3_IB_CH : Z := 11.

Definition CPU_OB_DOORBELL : Z := 4.

Definition TRIGGER_OFFSET : Z := 0x000.
Definition RESULT_OFFSET (id : Z) : Z := 0xc00 + id * 4.
Definition TRIGGER_ID_SHIFT : Z := 16.
Definition TRIGGER_CMD_GET : Z := 4.

Definition STA_OFFSET : Z := 0.
Definition SET_OFFSET : Z := 4.
Definition CLR_OFFSET : Z := 8.

Definition PER_CPU_IB_CH (i : Z) : Z := CPU0_IB_CH + i.

(** ** Token patterns

    The macros are [int] expressions; every use in the source converts them
    to [u32] (operand of [&] or [==] against a [u32], argument of
    [__raw_writel]), which is written [u32 (...)] at the use.  The shift
    stays inside the 32-bit word for channels 0 to 15. *)
Definition CH_MASK (ch : Z) : Z := Z.shiftl 0x3 (ch * 2).
Definition SL_SIGL (ch : Z) : Z := Z.shiftl 0x0 (ch * 2).
Definition SL_QUED (ch : Z) : Z := Z.shiftl 0x1 (ch * 2).
Definition MA_FREE (ch : Z) : Z := Z.shiftl 0x2 (ch * 2).
Definition MA_ACKD (ch : Z) : Z := Z.shiftl 0x3 (ch * 2).

(** ** The arbitration semaphore register block *)

(** Modelled from the spec: the register block behind [arb_sema] is hardware,
    not code.  Its state is the 32-bit status word.  A read at [STA_OFFSET]
    returns the status word; the source reads no other offset. *)
Definition __raw_readl (off : Z) (sta : Z) : Z :=
  if off =? STA_OFFSET then sta else 0.

(** Modelled from the spec: a write at [SET_OFFSET] sets the target bits and
    leaves the others untouched; a write at [CLR_OFFSET] clears the target
    bits and leaves the others untouched; the source writes no other offset.
    The value is a [u32] argument. *)
Definition __raw_writel (val : Z) (off : Z) (sta : Z) : Z :=
  if off =? SET_OFFSET then Z.lor sta (u32 val)
  else if off =? CLR_OFFSET then Z.ldiff sta (u32 val)
  else sta.

(** ** Token decoding and transitions

    The [ops] argument of the source functions is unused and left out.  The
    last argument is the status word of the register block; a transition
    returns the status word after its writes. *)
Definition bpmp_ch_sta (ch : Z) (sta : Z) : Z :=
  Z.land (__raw_readl STA_OFFSET sta) (u32 (CH_MASK ch)).

Definition bpmp_master_free (ch : Z) (sta : Z) : bool :=
  bpmp_ch_sta ch sta =? u32 (MA_FREE ch).

Definition bpmp_slave_signalled (ch : Z) (sta : Z) : bool :=
  bpmp_ch_sta ch sta =? u32 (SL_SIGL ch).

Definition bpmp_master_acked (ch : Z) (sta : Z) : bool :=
  bpmp_ch_sta ch sta =? u32 (MA_ACKD ch).

Definition bpmp_signal_slave (ch : Z) (sta : Z) : Z :=
  __raw_writel (CH_MASK ch) CLR_OFFSET sta.

(** MA_ACKD to MA_FREE *)
Definition bpmp_free_master (ch : Z) (sta : Z) : Z :=
  __raw_writel (Z.lxor (MA_ACKD ch) (MA_FREE ch)) CLR_OFFSET sta.

(** ** Observing tokens *)

(** The 2-bit slice of channel [ch] in a status word, as a number 0 to 3. *)
Definition slice (sta ch : Z) : Z := Z.land (Z.shiftr sta (ch * 2)) 3.

(** The token of channel [ch] matches the pattern [pat], by the comparison
    the decode functions of the source make. *)
Definition token_is (pat : Z -> Z) (ch : Z) (sta : Z) : Prop :=
  bpmp_ch_sta ch sta = u32 (pat ch).

(** Modelled from the spec: the peer is external to this file; what this
    side observes when the peer sets the slice of channel [ch] to the pattern
    [pat] is a status word with that token for [ch] and every other
    channel's slice as it was. *)
Definition peer_sets (pat : Z -> Z) (ch : Z) (sta sta' : Z) : Prop :=
  token_is pat ch sta' /\
  forall c, 0 <= c < 16 -> c <> ch -> bpmp_ch_sta c sta' = bpmp_ch_sta c sta.

(** ** Deferrable (thread) channel index maps *)
Definition bpmp_thread_ch_index (ch : Z) : Z :=
  if (ch <? CPU0_OB_CH1) || (ch >? CPU3_OB_CH1) then -1
  else s32 (ch - CPU0_OB_CH1).

Definition bpmp_thread_ch (idx : Z) : Z := s32 (CPU0_OB_CH1 + idx).

(** ** Shared memory, driver state and calls into the rest of the kernel *)

(** Modelled from the spec: [struct mb_data] is declared in bpmp.h, which is
    not part of this file: a small header (a status or operation code and a
    flags word) followed by a fixed-capacity opaque payload. *)
Record mb_data := MbData {
  code : Z;
  flags : Z;
  data : list Z
}.

Definition set_code (c : Z) (d : mb_data) : mb_data :=
  MbData c (flags d) (data d).

Definition set_data (bytes : list Z) (d : mb_data) : mb_data :=
  MbData (code d) (flags d) bytes.

(** Modelled from the spec: an entry of the [channel_area] array of bpmp.h,
    the pair of pointers to the inbound and to the outbound descriptor of a
    channel. *)
Record channel_data := ChannelData {
  ib : Z;
  ob : Z
}.

(** Interrupt handlers this file hands to the doorbell driver. *)
Inductive handler :=
| doorbell_handler.

(** Calls that leave this file: the device tree and I/O mapping helpers,
    MMIO accesses to the atomics window, the doorbell driver, the mailbox
    core and the warning macro.  MMIO accesses name the mapped window by its
    base pointer and the register by its offset. *)
Inductive call :=
| OfIomap (index : Z)
| Readl (base off : Z)
| Writel (val base off : Z)
| Ioremap (phys size : Z)
| RegisterDoorbellHandler (cpu : Z) (h : handler) (data : Z)
| RingDoorbell (db : Z)
| HandleIrq (ch : Z)
| SmpProcessorId
| WarnOn (cond : Z).

(** An event is a call with the value it returned. *)
Definition event : Type := call * Z.

(** The value a call returns to this file, from the value the environment
    offers: [readl] returns a [u32], the doorbell registration and
    [smp_processor_id] an [int], the mapping helpers a pointer (0 is NULL);
    the other calls return nothing. *)
Definition answer (c : call) (v : Z) : Z :=
  match c with
  | OfIomap _ | Ioremap _ _ => v
  | Readl _ _ => u32 v
  | RegisterDoorbellHandler _ _ _ | SmpProcessorId => s32 v
  | Writel _ _ _ | RingDoorbell _ | HandleIrq _ | WarnOn _ => 0
  end.

(** The state the file works on: the status word of the arbitration
    semaphore register block, the file's [arb_sema] pointer, the
    [channel_area] array, the shared memory the descriptors live in (by
    pointer, so that two pointers to one descriptor alias), and the calls
    made so far, oldest first. *)
Record bpmp := Bpmp {
  sema : Z;
  arb_sema : Z;
  channel_area : list channel_data;
  shmem : gmap Z mb_data;
  trace : list event
}.

Definition set_sema (f : Z -> Z) (s : bpmp) : bpmp :=
  Bpmp (f (sema s)) (arb_sema s) (channel_area s) (shmem s) (trace s).

Definition set_arb_sema (p : Z) (s : bpmp) : bpmp :=
  Bpmp (sema s) p (channel_area s) (shmem s) (trace s).

Definition set_channel_area (f : list channel_data -> list channel_data)
    (s : bpmp) : bpmp :=
  Bpmp (sema s) (arb_sema s) (f (channel_area s)) (shmem s) (trace s).

Definition set_shmem (f : gmap Z mb_data -> gmap Z mb_data) (s : bpmp) : bpmp :=
  Bpmp (sema s) (arb_sema s) (channel_area s) (f (shmem s)) (trace s).

(** The state [s] after the calls [evs]. *)
Definition add_events (evs : list event) (s : bpmp) : bpmp :=
  Bpmp (sema s) (arb_sema s) (channel_area s) (shmem s) (trace s ++ evs).

(** Computations over the state; [None] is a memory fault (an access
    through a pointer or an index that designates nothing). *)
Definition M (A : Type) : Type := bpmp -> option (A * bpmp).

#[global] Instance M_ret : MRet M := fun A (x : A) s => Some (x, s).

#[global] Instance M_bind : MBind M := fun A B (f : A -> M B) (m : M A) s =>
  match m s with
  | Some (x, s') => f x s'
  | None => None
  end.

Definition modify (f : bpmp -> bpmp) : M unit := fun s => Some (tt, f s).

Definition gets {A : Type} (f : bpmp -> A) : M A := fun s => Some (f s, s).

Definition lift {A : Type} (o : option A) : M A := fun s =>
  match o with
  | Some x => Some (x, s)
  | None => None
  end.

(** [memcpy(dst, src, n)] on byte buffers: the first [n] bytes of [dst] are
    replaced by those of [src]; a count that is negative (huge as a
    [size_t]) or larger than either buffer faults. *)
Definition memcpy (dst src : list Z) (n : Z) : option (list Z) :=
  if (0 <=? n) && (n <=? Z.of_nat (length src)) && (n <=? Z.of_nat (length dst))
  then Some (take (Z.to_nat n) src ++ drop (Z.to_nat n) dst)
  else None.

Section Mail.

(** Constants of bpmp.h and of the kernel's errno numbers, which are not
    part of this file. *)
Variables DO_ACK RING_DOORBELL MSG_DATA_MIN_SZ NR_CHANNELS : Z.
Variables ENODEV EFAULT : Z.

(** The environment: the value it offers for a call, given the calls made
    so far. *)
Variable env : list event -> call -> Z.

Definition perform (c : call) : M Z := fun s =>
  let v := answer c (env (trace s) c) in
  Some (v, add_events [(c, v)] s).

Definition of_iomap (index : Z) : M Z := perform (OfIomap index).
Definition readl (base off : Z) : M Z := perform (Readl base off).
Definition writel (val base off : Z) : M unit :=
  perform (Writel (u32 val) base off) ≫= fun _ => mret tt.
Definition ioremap (phys size : Z) : M Z := perform (Ioremap phys size).
Definition tegra_register_doorbell_handler (cpu : Z) (h : handler) (data : Z)
    : M Z :=
  perform (RegisterDoorbellHandler cpu h data).
Definition tegra_ring_doorbell (db : Z) : M unit :=
  perform (RingDoorbell db) ≫= fun _ => mret tt.
Definition bpmp_handle_irq (ch : Z) : M unit :=
  perform (HandleIrq ch) ≫= fun _ => mret tt.
Definition smp_processor_id : M Z := perform SmpProcessorId.
Definition WARN_ON (cond : Z) : M unit :=
  perform (WarnOn cond) ≫= fun _ => mret tt.

(** *** Acknowledge *)
Definition bpmp_ack_master (ch flags : Z) (sta : Z) : Z :=
  let sta := __raw_writel (MA_ACKD ch) SET_OFFSET sta in
  if negb (Z.land flags DO_ACK =? 0) then sta
  else
    (* the bit modification rule is violated here so that the channel does
       not stay in ACKD state forever *)
    __raw_writel (Z.lxor (MA_ACKD ch) (MA_FREE ch)) CLR_OFFSET sta.

Definition bpmp_ring_doorbell (ch : Z) : M unit :=
  tegra_ring_doorbell CPU_OB_DOORBELL.

(** *** Returning data on an inbound channel *)

(** [channel_area[ch]]; an index outside the array faults. *)
Definition channel_area_at (ch : Z) : M channel_data := fun s =>
  if ch <? 0 then None
  else lift (channel_area s !! Z.to_nat ch) s.

(** The descriptor a pointer designates; a pointer to nothing faults. *)
Definition load (p : Z) : M mb_data := fun s => lift (shmem s !! p) s.

Definition store (p : Z) (d : mb_data) : M unit :=
  modify (set_shmem <[p := d]>).

Definition bpmp_return_data (ch code : Z) (buf : list Z) (sz : Z) : M unit :=
  if sz >? MSG_DATA_MIN_SZ then WARN_ON 1
  else
    (* p = channel_area[ch].ob; p->code = code; memcpy(p->data, data, sz); *)
    area ← channel_area_at ch;
    let p := ob area in
    d ← load p;
    _ ← store p (set_code code d);
    d ← load p;
    bytes ← lift (memcpy (data d) buf sz);
    _ ← store p (set_data bytes d);
    (* flags = channel_area[ch].ib->flags; *)
    area ← channel_area_at ch;
    q ← load (ib area);
    let flags := flags q in
    _ ← modify (set_sema (bpmp_ack_master ch flags));
    if negb (Z.land flags RING_DOORBELL =? 0) then bpmp_ring_doorbell ch
    else mret tt.

Definition bpmp_ob_channel : M Z :=
  cpu ← smp_processor_id;
  mret (s32 (cpu + CPU0_OB_CH0)).

(** *** Doorbell interrupts *)
Definition bpmp_doorbell_handler (data : Z) : M unit :=
  let ch := s32 data in
  bpmp_handle_irq ch.

Definition run_handler (h : handler) : Z -> M unit :=
  match h with
  | doorbell_handler => bpmp_doorbell_handler
  end.

(** The loop of [bpmp_init_irq] over the CPU numbers still to do. *)
Fixpoint init_irq_loop (cpus : list Z) : M Z :=
  match cpus with
  | [] => mret 0
  | i :: cpus' =>
      let ch := PER_CPU_IB_CH i in
      r ← tegra_register_doorbell_handler i doorbell_handler ch;
      if negb (r =? 0) then mret r
      else init_irq_loop cpus'
  end.

Definition bpmp_init_irq : M Z := init_irq_loop (seqZ 0 4).

(** *** Handshake *)

(** Channel area is setup by BPMP before signalling handshake *)
Definition bpmp_channel_area (atomics ch : Z) : M Z :=
  _ ← writel (Z.lor (Z.shiftl ch TRIGGER_ID_SHIFT) TRIGGER_CMD_GET)
        atomics TRIGGER_OFFSET;
  a ← readl atomics (RESULT_OFFSET ch);
  mret a.

(** The first loop of [bpmp_connect] over the channels still to query;
    [inl r] is the early return of [r], [inr hw] the filled-in
    [channel_hwaddr] array. *)
Fixpoint connect_query_loop (atomics : Z) (chs : list Z)
    (channel_hwaddr : list Z) : M (Z + list Z) :=
  match chs with
  | [] => mret (inr channel_hwaddr)
  | i :: chs' =>
      a ← bpmp_channel_area atomics i;
      let channel_hwaddr := <[Z.to_nat i := a]> channel_hwaddr in
      if a =? 0 then mret (inl (- EFAULT))
      else connect_query_loop atomics chs' channel_hwaddr
  end.

(** The second loop of [bpmp_connect]. *)
Fixpoint connect_map_loop (chs : list Z) (channel_hwaddr : list Z) : M unit :=
  match chs with
  | [] => mret tt
  | i :: chs' =>
      a ← lift (channel_hwaddr !! Z.to_nat i);
      p ← ioremap a 0x80;
      _ ← modify (set_channel_area <[Z.to_nat i := ChannelData p p]>);
      connect_map_loop chs' channel_hwaddr
  end.

Definition bpmp_connect : M Z :=
  atomics ← of_iomap 0;
  if atomics =? 0 then mret (- ENODEV)
  else
    p ← of_iomap 1;
    _ ← modify (set_arb_sema p);
    if p =? 0 then mret (- ENODEV)
    else
      (* handshake: readl(arb_sema + STA_OFFSET) *)
      sta ← gets (fun s => __raw_readl STA_OFFSET (sema s));
      if sta =? 0 then mret (- ENODEV)
      else
        r ← connect_query_loop atomics (seqZ 0 NR_CHANNELS)
              (replicate (Z.to_nat NR_CHANNELS) 0);
        match r with
        | inl e => mret e
        | inr channel_hwaddr =>
            _ ← connect_map_loop (seqZ 0 NR_CHANNELS) channel_hwaddr;
            mret 0
        end.

(** Token transitions this file can make, for traces of them. *)
Inductive token_op :=
| SignalSlave (ch : Z)
| AckMaster (ch flags : Z)
| FreeMaster (ch : Z).

Definition op_channel (o : token_op) : Z :=
  match o with
  | SignalSlave ch | AckMaster ch _ | FreeMaster ch => ch
  end.

Definition run_op (o : token_op) (sta : Z) : Z :=
  match o with
  | SignalSlave ch => bpmp_signal_slave ch sta
  | AckMaster ch flags => bpmp_ack_master ch flags sta
  | FreeMaster ch => bpmp_free_master ch sta
  end.

Definition run_ops (ops : list token_op) (sta : Z) : Z :=
  foldl (fun sta o => run_op o sta) sta ops.

(** What a computation returns, the state it leaves and the calls it makes
    when run from [s]. *)
Definition result_of {A : Type} (m : M A) (s : bpmp) : option A :=
  fst <$> m s.

Definition state_of {A : Type} (m : M A) (s : bpmp) : option bpmp :=
  snd <$> m s.

Definition events_of {A : Type} (m : M A) (s : bpmp) : list event :=
  match m s with
  | Some (_, s') => drop (length (trace s)) (trace s')
  | None => []
  end.

(** The trigger word [bpmp_channel_area] writes for channel [ch]. *)
Definition trigger_word (ch : Z) : Z :=
  u32 (Z.lor (Z.shiftl ch TRIGGER_ID_SHIFT) TRIGGER_CMD_GET).

(** The two MMIO accesses of [bpmp_channel_area atomics ch] when the result
    register reads [a]. *)
Definition query_events (atomics ch a : Z) : list event :=
  [(Writel (trigger_word ch) atomics TRIGGER_OFFSET, 0);
   (Readl atomics (RESULT_OFFSET ch), a)].

(** [queries atomics chs evs o]: the calls [evs] the first loop of
    [bpmp_connect] makes over the channels [chs], and its outcome: [Some i]
    when the address of channel [i] read as zero (the loop stops there),
    [None] when every address read as nonzero. *)
Inductive queries (atomics : Z) : list Z -> list event -> option Z -> Prop :=
| queries_done :
    queries atomics [] [] None
| queries_fail i chs :
    queries atomics (i :: chs) (query_events atomics i 0) (Some i)
| queries_next i chs a evs o :
    a <> 0 ->
    queries atomics chs evs o ->
    queries atomics (i :: chs) (query_events atomics i a ++ evs) o.

Definition is_ioremap (e : event) : Prop :=
  exists phys size p, e = (Ioremap phys size, p).

(** [connect_outcome s r mapped evs]: [bpmp_connect] run from [s] returns
    [r] after the calls [evs]; [mapped] tells whether it reached the loop
    that maps the channel areas. *)
Inductive connect_outcome (s : bpmp) : Z -> bool -> list event -> Prop :=
| connect_no_atomics :
    connect_outcome s (- ENODEV) false [(OfIomap 0, 0)]
| connect_no_arb_sema a :
    a <> 0 ->
    connect_outcome s (- ENODEV) false [(OfIomap 0, a); (OfIomap 1, 0)]
| connect_not_live a p :
    a <> 0 -> p <> 0 ->
    __raw_readl STA_OFFSET (sema s) = 0 ->
    connect_outcome s (- ENODEV) false [(OfIomap 0, a); (OfIomap 1, p)]
| connect_no_channel a p qevs i :
    a <> 0 -> p <> 0 ->
    __raw_readl STA_OFFSET (sema s) <> 0 ->
    queries a (seqZ 0 NR_CHANNELS) qevs (Some i) ->
    connect_outcome s (- EFAULT) false
      ((OfIomap 0, a) :: (OfIomap 1, p) :: qevs)
| connect_done a p qevs mevs :
    a <> 0 -> p <> 0 ->
    __raw_readl STA_OFFSET (sema s) <> 0 ->
    queries a (seqZ 0 NR_CHANNELS) qevs None ->
    Forall is_ioremap mevs ->
    connect_outcome s 0 true
      ((OfIomap 0, a) :: (OfIomap 1, p) :: qevs ++ mevs).

(** [registrations cpus evs r]: the calls [evs] the loop of [bpmp_init_irq]
    makes over the CPUs [cpus] and the value [r] it returns: it stops at the
    first registration that returns nonzero and returns that value. *)
Inductive registrations : list Z -> list event -> Z -> Prop :=
| registrations_done :
    registrations [] [] 0
| registrations_fail i cpus r :
    r <> 0 ->
    registrations (i :: cpus)
      [(RegisterDoorbellHandler i doorbell_handler (PER_CPU_IB_CH i), r)] r
| registrations_next i cpus evs r :
    registrations cpus evs r ->
    registrations (i :: cpus)
      ((RegisterDoorbellHandler i doorbell_handler (PER_CPU_IB_CH i), 0) :: evs) r.

(** ** Definitions for the further properties *)

(** What a transition does to the 2-bit slice of its own channel. *)
Definition slice_step (o : token_op) (x : Z) : Z :=
  match o with
  | SignalSlave _ => 0
  | AckMaster _ flags => if Z.land flags DO_ACK =? 0 then 2 else 3
  | FreeMaster _ => Z.ldiff x 1
  end.


Definition is_of_iomap (e : event) : Prop :=
  exists index p, e = (OfIomap index, p).

(** The registrations [bpmp_init_irq] makes when none fails, in order. *)
Definition all_registrations : list call :=
  (fun i => RegisterDoorbellHandler i doorbell_handler (PER_CPU_IB_CH i))
    <$> seqZ 0 4.

(** ** A concrete configuration to run the model on

    Four CPUs with three channels each; the flag bits, the payload capacity
    and the errno numbers are fixed to concrete values. *)

Definition cfg_DO_ACK : Z := 1.
Definition cfg_RING_DOORBELL : Z := 2.
Definition cfg_MSG_DATA_MIN_SZ : Z := 120.
Definition cfg_NR_CHANNELS : Z := 12.
Definition cfg_ENODEV : Z := 19.
Definition cfg_EFAULT : Z := 14.

(** A status word with every one of the twelve channels at MASTER_FREE. *)
Definition all_free : Z := 0xAAAAAA.

(** A state before connect: nothing mapped, no call made yet. *)
Definition boot (sta : Z) : bpmp :=
  Bpmp sta 0 (replicate 12 (ChannelData 0 0)) ∅ [].

(** A state after connect, with the descriptor of channel 8 at 0x9000
    holding [flags] and an all-zero payload. *)
Definition connected (sta flags : Z) : bpmp :=
  Bpmp sta 0x2000
    (<[8%nat := ChannelData 0x9000 0x9000]> (replicate 12 (ChannelData 0 0)))
    {[ 0x9000 := MbData 0 flags (replicate 120 0) ]} [].



(** An environment without the device: every mapping fails. *)
Definition env_no_device : list event -> call -> Z := fun _ _ => 0.

(** An environment with both register windows and the address [addr ch] in
    the result register of channel [ch]; doorbell registration for CPU [cpu]
    returns [reg cpu]. *)
Definition env_device (addr : Z -> Z) (reg : Z -> Z) : list event -> call -> Z :=
  fun _ c =>
    match c with
    | OfIomap index => 0x1000 * (index + 1)
    | Readl _ off => addr ((off - 0xc00) / 4)
    | Ioremap phys _ => phys
    | RegisterDoorbellHandler cpu _ _ => reg cpu
    | _ => 0
    end.

Definition addr_all (ch : Z) : Z := 0x80000000 + ch * 0x80.

Definition addr_missing (i : Z) (ch : Z) : Z :=
  if ch =? i then 0 else addr_all ch.

Definition reg_ok (cpu : Z) : Z := 0.

(** An environment with every channel address present but that of channel 2. *)
Definition env_missing_2 : list event -> call -> Z :=
  env_device (addr_missing 2) reg_ok.

(** An environment with every channel address present. *)
Definition env_ready : list event -> call -> Z := env_device addr_all reg_ok.

(** Channel 4 handed to the peer, the other channels free. *)
Definition signalled_4 : Z := bpmp_signal_slave 4 all_free.

(** Transitions on channels other than 4. *)
Definition other_ops : list token_op :=
  [SignalSlave 5; AckMaster 8 0; FreeMaster 6].

Definition reg_fail (i e : Z) (cpu : Z) : Z := if cpu =? i then e else 0.

(** * Properties *)

(** ** Bit-level facts about slices *)

Lemma testbit_two_bits p m : 0 <= p < 4 -> 2 <= m -> Z.testbit p m = false.
Proof.
  intros Hp Hm. rewrite <- (Z.mod_small p (2 ^ 2)) by lia.
  apply Z.mod_pow2_bits_high. lia.
Qed.

Lemma testbit_3 m : Z.testbit 3 m = (0 <=? m) && (m <? 2).
Proof.
  destruct (Z.ltb_spec m 2) as [Hlt|Hge].
  - destruct (Z.leb_spec 0 m) as [H0|Hneg].
    + assert (m = 0 \/ m = 1) as [-> | ->] by lia; reflexivity.
    + apply Z.testbit_neg_r; lia.
  - rewrite andb_false_r. apply testbit_two_bits; lia.
Qed.

Lemma testbit_shiftl p k n :
  0 <= k -> Z.testbit (Z.shiftl p k) n = Z.testbit p (n - k).
Proof.
  intros Hk. destruct (Z.leb_spec 0 n).
  - apply Z.shiftl_spec; lia.
  - rewrite !Z.testbit_neg_r by lia. reflexivity.
Qed.

Lemma land_mask_slice sta ch :
  0 <= ch -> Z.land sta (Z.shiftl 3 (ch * 2)) = Z.shiftl (slice sta ch) (ch * 2).
Proof.
  intros Hch. unfold slice. apply Z.bits_inj'. intros n Hn.
  rewrite Z.land_spec, !testbit_shiftl, Z.land_spec by lia.
  rewrite testbit_3.
  destruct (Z.leb_spec 0 (n - ch * 2)) as [H|H]; simpl.
  - rewrite Z.shiftr_spec by lia. replace (n - ch * 2 + ch * 2) with n by lia.
    reflexivity.
  - rewrite !andb_false_r. reflexivity.
Qed.

Lemma shiftl_inj a b k : 0 <= k -> Z.shiftl a k = Z.shiftl b k -> a = b.
Proof.
  intros Hk H. apply (f_equal (fun x => Z.shiftr x k)) in H.
  rewrite !Z.shiftr_shiftl_l, !Z.sub_diag, !Z.shiftl_0_r in H by lia. exact H.
Qed.

Lemma slice_range sta ch : 0 <= slice sta ch < 4.
Proof.
  unfold slice. change 3 with (Z.ones 2). rewrite Z.land_ones by lia.
  apply Z.mod_pos_bound. lia.
Qed.

Lemma slice_shiftl_same p ch :
  0 <= ch -> slice (Z.shiftl p (ch * 2)) ch = Z.land p 3.
Proof.
  intros Hch. unfold slice.
  rewrite Z.shiftr_shiftl_l, Z.sub_diag, Z.shiftl_0_r by lia. reflexivity.
Qed.

Lemma slice_shiftl_other p ch c :
  0 <= p < 4 -> 0 <= ch -> 0 <= c -> c <> ch ->
  slice (Z.shiftl p (ch * 2)) c = 0.
Proof.
  intros Hp Hch Hc Hne. unfold slice. apply Z.bits_inj'. intros n Hn.
  rewrite Z.land_spec, Z.shiftr_spec, testbit_shiftl, testbit_3, Z.bits_0 by lia.
  destruct (Z.ltb_spec n 2) as [Hlt|Hge]; [|rewrite !andb_false_r; reflexivity].
  destruct (Z.lt_ge_cases c ch) as [Hl|Hg].
  - rewrite Z.testbit_neg_r by lia. reflexivity.
  - rewrite testbit_two_bits by lia. reflexivity.
Qed.

Lemma slice_lor a b ch : slice (Z.lor a b) ch = Z.lor (slice a ch) (slice b ch).
Proof. unfold slice. rewrite Z.shiftr_lor, Z.land_lor_distr_l. reflexivity. Qed.

Lemma slice_ldiff a b ch :
  slice (Z.ldiff a b) ch = Z.ldiff (slice a ch) (slice b ch).
Proof.
  unfold slice. rewrite Z.shiftr_ldiff. apply Z.bits_inj'. intros n Hn.
  rewrite !Z.land_spec, !Z.ldiff_spec, !Z.land_spec.
  destruct (Z.testbit (Z.shiftr a (ch * 2)) n),
    (Z.testbit (Z.shiftr b (ch * 2)) n), (Z.testbit 3 n); reflexivity.
Qed.

Lemma slice_testbit sta ch n :
  0 <= n -> Z.testbit (slice sta ch) n = Z.testbit sta (n + ch * 2) && (n <? 2).
Proof.
  intros Hn. unfold slice. rewrite Z.land_spec, Z.shiftr_spec, testbit_3 by lia.
  destruct (Z.leb_spec 0 n); [reflexivity | lia].
Qed.

Lemma u32_pattern p ch :
  0 <= p < 4 -> 0 <= ch < 16 -> u32 (Z.shiftl p (ch * 2)) = Z.shiftl p (ch * 2).
Proof.
  intros Hp Hch. apply Z.mod_small. rewrite Z.shiftl_mul_pow2 by lia.
  assert (0 < 2 ^ (ch * 2) <= 2 ^ 30)
    by (split; [apply Z.pow_pos_nonneg; lia | apply Z.pow_le_mono_r; lia]).
  nia.
Qed.

(** ** Tokens in terms of slices *)

Lemma ch_sta_slice ch sta :
  0 <= ch < 16 -> bpmp_ch_sta ch sta = Z.shiftl (slice sta ch) (ch * 2).
Proof.
  intros Hch. unfold bpmp_ch_sta, __raw_readl, CH_MASK. simpl.
  rewrite u32_pattern by lia. apply land_mask_slice. lia.
Qed.

Lemma ch_sta_pattern p ch sta :
  0 <= p < 4 -> 0 <= ch < 16 ->
  bpmp_ch_sta ch sta = u32 (Z.shiftl p (ch * 2)) <-> slice sta ch = p.
Proof.
  intros Hp Hch. rewrite ch_sta_slice, u32_pattern by lia. split.
  - apply shiftl_inj. lia.
  - intros ->. reflexivity.
Qed.

Lemma ch_sta_eq_slice c sta sta' :
  0 <= c < 16 ->
  bpmp_ch_sta c sta = bpmp_ch_sta c sta' <-> slice sta c = slice sta' c.
Proof.
  intros Hc. rewrite !ch_sta_slice by lia. split.
  - apply shiftl_inj. lia.
  - intros ->. reflexivity.
Qed.

Lemma slice_set p ch c sta :
  0 <= p < 4 -> 0 <= ch < 16 -> 0 <= c ->
  slice (__raw_writel (Z.shiftl p (ch * 2)) SET_OFFSET sta) c =
  if decide (c = ch) then Z.lor (slice sta c) p else slice sta c.
Proof.
  intros Hp Hch Hc. unfold __raw_writel. simpl.
  rewrite u32_pattern, slice_lor by lia. destruct (decide (c = ch)) as [->|Hne].
  - rewrite slice_shiftl_same by lia. f_equal.
    change 3 with (Z.ones 2). rewrite Z.land_ones by lia. apply Z.mod_small. lia.
  - rewrite slice_shiftl_other by lia. apply Z.lor_0_r.
Qed.

Lemma slice_clr p ch c sta :
  0 <= p < 4 -> 0 <= ch < 16 -> 0 <= c ->
  slice (__raw_writel (Z.shiftl p (ch * 2)) CLR_OFFSET sta) c =
  if decide (c = ch) then Z.ldiff (slice sta c) p else slice sta c.
Proof.
  intros Hp Hch Hc. unfold __raw_writel. simpl.
  rewrite u32_pattern, slice_ldiff by lia. destruct (decide (c = ch)) as [->|Hne].
  - rewrite slice_shiftl_same by lia. f_equal.
    change 3 with (Z.ones 2). rewrite Z.land_ones by lia. apply Z.mod_small. lia.
  - rewrite slice_shiftl_other by lia. apply Z.ldiff_0_r.
Qed.

Lemma slice_signal_slave ch c sta :
  0 <= ch < 16 -> 0 <= c ->
  slice (bpmp_signal_slave ch sta) c = if decide (c = ch) then 0 else slice sta c.
Proof.
  intros Hch Hc. unfold bpmp_signal_slave, CH_MASK. rewrite slice_clr by lia.
  destruct (decide (c = ch)); [|reflexivity].
  pose proof (slice_range sta c) as Hr.
  assert (slice sta c = 0 \/ slice sta c = 1 \/ slice sta c = 2 \/ slice sta c = 3)
    as [-> | [-> | [-> | ->]]] by lia; reflexivity.
Qed.

Lemma slice_ack_set ch c sta :
  0 <= ch < 16 -> 0 <= c ->
  slice (__raw_writel (MA_ACKD ch) SET_OFFSET sta) c =
  if decide (c = ch) then 3 else slice sta c.
Proof.
  intros Hch Hc. unfold MA_ACKD. rewrite slice_set by lia.
  destruct (decide (c = ch)); [|reflexivity].
  pose proof (slice_range sta c) as Hr.
  assert (slice sta c = 0 \/ slice sta c = 1 \/ slice sta c = 2 \/ slice sta c = 3)
    as [-> | [-> | [-> | ->]]] by lia; reflexivity.
Qed.

Lemma slice_free_master ch c sta :
  0 <= ch < 16 -> 0 <= c ->
  slice (bpmp_free_master ch sta) c =
  if decide (c = ch) then Z.ldiff (slice sta c) 1 else slice sta c.
Proof.
  intros Hch Hc. unfold bpmp_free_master, MA_ACKD, MA_FREE.
  rewrite <- Z.shiftl_lxor. change (Z.lxor 3 2) with 1. apply slice_clr; lia.
Qed.

Lemma slice_ack_master ch flags c sta :
  0 <= ch < 16 -> 0 <= c ->
  slice (bpmp_ack_master ch flags sta) c =
  if decide (c = ch) then (if Z.land flags DO_ACK =? 0 then 2 else 3)
  else slice sta c.
Proof.
  intros Hch Hc. unfold bpmp_ack_master.
  destruct (Z.land flags DO_ACK =? 0); simpl.
  - fold (bpmp_free_master ch (__raw_writel (MA_ACKD ch) SET_OFFSET sta)).
    rewrite slice_free_master, slice_ack_set by lia.
    destruct (decide (c = ch)); reflexivity.
  - apply slice_ack_set; lia.
Qed.

Lemma slice_run_op o c sta :
  0 <= op_channel o < 16 -> 0 <= c -> op_channel o <> c ->
  slice (run_op o sta) c = slice sta c.
Proof.
  intros Ho Hc Hne. destruct o as [ch|ch flags|ch]; simpl in *.
  - rewrite slice_signal_slave by lia. destruct (decide (c = ch)); [lia|reflexivity].
  - rewrite slice_ack_master by lia. destruct (decide (c = ch)); [lia|reflexivity].
  - rewrite slice_free_master by lia. destruct (decide (c = ch)); [lia|reflexivity].
Qed.

Lemma slice_run_ops ops c sta :
  Forall (fun o => 0 <= op_channel o < 16 /\ op_channel o <> c) ops -> 0 <= c ->
  slice (run_ops ops sta) c = slice sta c.
Proof.
  intros Hops Hc. revert sta. induction Hops as [|o ops [Ho Hne] _ IH]; intros sta.
  - reflexivity.
  - unfold run_ops in *. simpl. rewrite IH. apply slice_run_op; assumption.
Qed.

Lemma token_is_slice (p : Z) (pat : Z -> Z) ch sta :
  (forall c, pat c = Z.shiftl p (c * 2)) -> 0 <= p < 4 -> 0 <= ch < 16 ->
  token_is pat ch sta <-> slice sta ch = p.
Proof.
  intros Hpat Hp Hch. unfold token_is. rewrite Hpat. apply ch_sta_pattern; lia.
Qed.

Lemma SL_SIGL_slice ch sta :
  0 <= ch < 16 -> token_is SL_SIGL ch sta <-> slice sta ch = 0.
Proof. apply (token_is_slice 0); [reflexivity | lia]. Qed.

Lemma SL_QUED_slice ch sta :
  0 <= ch < 16 -> token_is SL_QUED ch sta <-> slice sta ch = 1.
Proof. apply (token_is_slice 1); [reflexivity | lia]. Qed.

Lemma MA_FREE_slice ch sta :
  0 <= ch < 16 -> token_is MA_FREE ch sta <-> slice sta ch = 2.
Proof. apply (token_is_slice 2); [reflexivity | lia]. Qed.

Lemma MA_ACKD_slice ch sta :
  0 <= ch < 16 -> token_is MA_ACKD ch sta <-> slice sta ch = 3.
Proof. apply (token_is_slice 3); [reflexivity | lia]. Qed.

Lemma ch_sta_pattern_eqb p ch sta :
  0 <= p < 4 -> 0 <= ch < 16 ->
  (bpmp_ch_sta ch sta =? u32 (Z.shiftl p (ch * 2))) = (slice sta ch =? p).
Proof.
  intros Hp Hch. pose proof (ch_sta_pattern p ch sta Hp Hch) as Hiff.
  destruct (Z.eqb_spec (slice sta ch) p) as [He|Hn].
  - apply Z.eqb_eq, Hiff, He.
  - apply Z.eqb_neq. intros He. apply Hn, Hiff, He.
Qed.

Lemma slice_bits_agree sta sta' ch :
  0 <= ch ->
  Z.testbit sta (ch * 2) = Z.testbit sta' (ch * 2) ->
  Z.testbit sta (ch * 2 + 1) = Z.testbit sta' (ch * 2 + 1) ->
  slice sta ch = slice sta' ch.
Proof.
  intros Hch H0 H1. apply Z.bits_inj'. intros n Hn. rewrite !slice_testbit by lia.
  destruct (Z.ltb_spec n 2) as [Hlt|Hge]; [|rewrite !andb_false_r; reflexivity].
  assert (n = 0 \/ n = 1) as [-> | ->] by lia; simpl.
  - rewrite !andb_true_r. exact H0.
  - rewrite !andb_true_r. replace (1 + ch * 2) with (ch * 2 + 1) by lia. exact H1.
Qed.

(** ** The token protocol *)

(** C1 (amended): for every channel [ch] whose token is MASTER_FREE, the
    issue-request transition [bpmp_signal_slave] clears both bits of the
    slice: the token it leaves is SLAVE_SIGNALLED (00). *)
Theorem signal_slave_clears_token ch sta :
  0 <= ch < 16 ->
  token_is MA_FREE ch sta ->
  token_is SL_SIGL ch (bpmp_signal_slave ch sta).
Proof.
  intros Hch _. apply SL_SIGL_slice; [lia|].
  rewrite slice_signal_slave by lia. destruct (decide (ch = ch)); [reflexivity|lia].
Qed.

(** C2: from a status word in which the token of [ch] is MASTER_FREE, the
    cycle [bpmp_signal_slave], the peer setting the slice to SLAVE_SIGNALLED,
    [bpmp_ack_master] (with any flags), [bpmp_free_master] ends with the
    token of [ch] at MASTER_FREE again and with the slice of every other
    channel as it was before the cycle. *)
Theorem full_cycle_round_trip ch flags sta sta' :
  0 <= ch < 16 ->
  token_is MA_FREE ch sta ->
  peer_sets SL_SIGL ch (bpmp_signal_slave ch sta) sta' ->
  let sta'' := bpmp_free_master ch (bpmp_ack_master ch flags sta') in
  token_is MA_FREE ch sta'' /\
  forall c, 0 <= c < 16 -> c <> ch -> bpmp_ch_sta c sta'' = bpmp_ch_sta c sta.
Proof.
  intros Hch Hfree [Hsig Hother] sta''. subst sta''. split.
  - apply MA_FREE_slice; [lia|].
    rewrite slice_free_master, slice_ack_master by lia.
    destruct (decide (ch = ch)); [|lia].
    destruct (Z.land flags DO_ACK =? 0); reflexivity.
  - intros c Hc Hne. apply ch_sta_eq_slice; [lia|].
    rewrite slice_free_master, slice_ack_master by lia.
    destruct (decide (c = ch)); [lia|].
    apply (ch_sta_eq_slice c) in Hother; [|lia..].
    rewrite Hother, slice_signal_slave by lia.
    destruct (decide (c = ch)); [lia|reflexivity].
Qed.

(** C3: for a channel [ch] whose token the peer has put in the signalled
    state, acknowledging with the immediate policy ([DO_ACK] clear in the
    flags) leaves the token at MASTER_FREE in that one step; acknowledging
    with the deferred policy ([DO_ACK] set) leaves it at MASTER_ACKED, it
    stays MASTER_ACKED through any transitions [ops] made on other channels,
    and [bpmp_free_master] then moves it to MASTER_FREE. *)
Theorem ack_policy ch flags sta ops :
  0 <= ch < 16 ->
  token_is SL_SIGL ch sta ->
  Forall (fun o => 0 <= op_channel o < 16 /\ op_channel o <> ch) ops ->
  let acked := bpmp_ack_master ch flags sta in
  if Z.land flags DO_ACK =? 0 then token_is MA_FREE ch acked
  else
    token_is MA_ACKD ch acked /\
    token_is MA_ACKD ch (run_ops ops acked) /\
    token_is MA_FREE ch (bpmp_free_master ch (run_ops ops acked)).
Proof.
  intros Hch _ Hops acked. subst acked.
  assert (Hs := slice_ack_master ch flags ch sta Hch ltac:(lia)).
  destruct (decide (ch = ch)); [|lia].
  destruct (Z.land flags DO_ACK =? 0).
  - apply MA_FREE_slice; [lia|]. exact Hs.
  - repeat split.
    + apply MA_ACKD_slice; [lia|]. exact Hs.
    + apply MA_ACKD_slice; [lia|]. rewrite slice_run_ops by (assumption || lia).
      exact Hs.
    + apply MA_FREE_slice; [lia|].
      rewrite slice_free_master, slice_run_ops by (assumption || lia).
      destruct (decide (ch = ch)); [|lia]. rewrite Hs. reflexivity.
Qed.

(** C4: for any status word, exactly one of the four token patterns
    SLAVE_SIGNALLED, SLAVE_QUEUED, MASTER_FREE, MASTER_ACKED matches the
    slice of a channel; at most one of the decode predicates
    [bpmp_master_free], [bpmp_slave_signalled], [bpmp_master_acked] is true;
    and each of them is a function of the two bits of the channel's slice in
    the status word and of nothing else. *)
Theorem token_decode_partition ch sta :
  0 <= ch < 16 ->
  length (List.filter (fun pat => bpmp_ch_sta ch sta =? u32 (pat ch))
            [SL_SIGL; SL_QUED; MA_FREE; MA_ACKD]) = 1%nat /\
  (length (List.filter id [bpmp_master_free ch sta; bpmp_slave_signalled ch sta;
                           bpmp_master_acked ch sta]) <= 1)%nat /\
  forall sta',
    Z.testbit sta (ch * 2) = Z.testbit sta' (ch * 2) ->
    Z.testbit sta (ch * 2 + 1) = Z.testbit sta' (ch * 2 + 1) ->
    bpmp_master_free ch sta = bpmp_master_free ch sta' /\
    bpmp_slave_signalled ch sta = bpmp_slave_signalled ch sta' /\
    bpmp_master_acked ch sta = bpmp_master_acked ch sta'.
Proof.
  intros Hch. unfold bpmp_master_free, bpmp_slave_signalled, bpmp_master_acked.
  unfold SL_SIGL, SL_QUED, MA_FREE, MA_ACKD. cbn [List.filter].
  rewrite !ch_sta_pattern_eqb by lia.
  split; [|split].
  - pose proof (slice_range sta ch) as Hr.
    assert (slice sta ch = 0 \/ slice sta ch = 1 \/ slice sta ch = 2 \/
            slice sta ch = 3) as [-> | [-> | [-> | ->]]] by lia; reflexivity.
  - pose proof (slice_range sta ch) as Hr.
    assert (slice sta ch = 0 \/ slice sta ch = 1 \/ slice sta ch = 2 \/
            slice sta ch = 3) as [-> | [-> | [-> | ->]]] by lia; simpl; lia.
  - intros sta' H0 H1. rewrite !ch_sta_pattern_eqb by lia.
    rewrite (slice_bits_agree sta sta' ch) by (lia || assumption). auto.
Qed.

(** C5: for every channel and every prior value of its slice, the set-bits
    write of the MASTER_ACKED pattern that [bpmp_ack_master] starts with
    leaves the token at MASTER_ACKED; with [DO_ACK] in the flags that single
    write is the whole acknowledge step, no clear is made. *)
Theorem ack_set_absorbing ch sta :
  0 <= ch < 16 ->
  token_is MA_ACKD ch (__raw_writel (MA_ACKD ch) SET_OFFSET sta) /\
  forall flags,
    Z.land flags DO_ACK <> 0 ->
    bpmp_ack_master ch flags sta = __raw_writel (MA_ACKD ch) SET_OFFSET sta.
Proof.
  intros Hch. split.
  - apply MA_ACKD_slice; [lia|]. rewrite slice_ack_set by lia.
    destruct (decide (ch = ch)); [reflexivity|lia].
  - intros flags Hflags. unfold bpmp_ack_master.
    destruct (Z.eqb_spec (Z.land flags DO_ACK) 0); [contradiction | reflexivity].
Qed.

(** C10: the deferrable-channel index maps are inverse to each other on
    their ranges: [bpmp_thread_ch_index (bpmp_thread_ch i) = i] for [i] in
    0..3, [bpmp_thread_ch (bpmp_thread_ch_index ch) = ch] for [ch] in 4..7,
    and [bpmp_thread_ch_index ch = -1] for every [ch] outside 4..7. *)
Theorem thread_ch_inverse :
  (forall i, 0 <= i <= 3 -> bpmp_thread_ch_index (bpmp_thread_ch i) = i) /\
  (forall ch, 4 <= ch <= 7 -> bpmp_thread_ch (bpmp_thread_ch_index ch) = ch) /\
  (forall ch, ~ 4 <= ch <= 7 -> bpmp_thread_ch_index ch = -1).
Proof.
  split; [|split].
  - intros i Hi.
    assert (i = 0 \/ i = 1 \/ i = 2 \/ i = 3) as [-> | [-> | [-> | ->]]] by lia;
      reflexivity.
  - intros ch Hch.
    assert (ch = 4 \/ ch = 5 \/ ch = 6 \/ ch = 7) as [-> | [-> | [-> | ->]]] by lia;
      reflexivity.
  - intros ch Hch. unfold bpmp_thread_ch_index, CPU0_OB_CH1, CPU3_OB_CH1.
    destruct (Z.ltb_spec ch 4); [reflexivity|].
    destruct (Z.gtb_spec ch 7) as [Hgt|Hle]; [reflexivity|]. lia.
Qed.

(** ** Running computations *)

Lemma add_events_nil s : add_events [] s = s.
Proof. destruct s. unfold add_events. simpl. rewrite app_nil_r. reflexivity. Qed.

Lemma add_events_app evs1 evs2 s :
  add_events evs2 (add_events evs1 s) = add_events (evs1 ++ evs2) s.
Proof. unfold add_events. simpl. rewrite app_assoc. reflexivity. Qed.

Lemma perform_run c s :
  perform c s =
  Some (answer c (env (trace s) c),
        add_events [(c, answer c (env (trace s) c))] s).
Proof. reflexivity. Qed.

Lemma bind_run {A B : Type} (m : M A) (f : A -> M B) s :
  (m ≫= f) s = match m s with Some (x, s') => f x s' | None => None end.
Proof. reflexivity. Qed.

Lemma events_of_run {A : Type} (m : M A) s x s' evs :
  m s = Some (x, s') -> trace s' = trace s ++ evs -> events_of m s = evs.
Proof.
  intros Hrun Htr. unfold events_of. rewrite Hrun, Htr.
  apply drop_app_length.
Qed.

Lemma result_of_run {A : Type} (m : M A) s x s' :
  m s = Some (x, s') -> result_of m s = Some x.
Proof. intros Hrun. unfold result_of. rewrite Hrun. reflexivity. Qed.

(** ** Returning data *)

(** C6: for every channel and every size greater than the payload capacity
    [MSG_DATA_MIN_SZ], [bpmp_return_data] only warns: it returns, the
    channel areas (code field and payload bytes of every descriptor) are
    unchanged, the status word is unchanged (no acknowledge), and the only
    call made is the warning, so the doorbell is not rung. *)
Theorem return_data_oversize ch code buf sz s :
  sz > MSG_DATA_MIN_SZ ->
  exists s',
    bpmp_return_data ch code buf sz s = Some (tt, s') /\
    shmem s' = shmem s /\
    channel_area s' = channel_area s /\
    sema s' = sema s /\
    events_of (bpmp_return_data ch code buf sz) s = [(WarnOn 1, 0)] /\
    forall db v, (RingDoorbell db, v) ∉ events_of (bpmp_return_data ch code buf sz) s.
Proof.
  intros Hsz.
  assert (Hrun : bpmp_return_data ch code buf sz s =
                 Some (tt, add_events [(WarnOn 1, 0)] s)).
  { unfold bpmp_return_data. destruct (Z.gtb_spec sz MSG_DATA_MIN_SZ); [|lia].
    reflexivity. }
  assert (Hev : events_of (bpmp_return_data ch code buf sz) s = [(WarnOn 1, 0)]).
  { eapply events_of_run; [exact Hrun | reflexivity]. }
  exists (add_events [(WarnOn 1, 0)] s). repeat split; try assumption.
  intros db v Hin. rewrite Hev in Hin.
  apply list_elem_of_singleton in Hin. discriminate.
Qed.

(** ** Handshake *)

Lemma bpmp_channel_area_run atomics ch s :
  exists a,
    bpmp_channel_area atomics ch s =
    Some (a, add_events (query_events atomics ch a) s).
Proof.
  eexists. unfold bpmp_channel_area, writel, readl, query_events, trigger_word.
  rewrite !bind_run, perform_run. simpl. rewrite !bind_run, perform_run. simpl.
  rewrite add_events_app. reflexivity.
Qed.

Lemma connect_query_loop_spec atomics chs hw s :
  exists o evs hw',
    connect_query_loop atomics chs hw s =
    Some (match o with Some _ => inl (- EFAULT) | None => inr hw' end,
          add_events evs s) /\
    queries atomics chs evs o /\
    length hw' = length hw.
Proof.
  revert hw s. induction chs as [|i chs IH]; intros hw s.
  - exists None, [], hw. rewrite add_events_nil. repeat split. constructor.
  - destruct (bpmp_channel_area_run atomics i s) as [a Ha].
    cbn [connect_query_loop]. rewrite bind_run, Ha.
    destruct (Z.eqb_spec a 0) as [->|Hnz].
    + exists (Some i), (query_events atomics i 0), hw.
      repeat split. constructor.
    + destruct (IH (<[Z.to_nat i := a]> hw)
                  (add_events (query_events atomics i a) s))
        as (o & evs & hw' & Hrun & Hq & Hlen).
      exists o, (query_events atomics i a ++ evs), hw'.
      rewrite Hrun, add_events_app. repeat split.
      * constructor; assumption.
      * rewrite Hlen. apply length_insert.
Qed.

Lemma connect_map_loop_spec chs hw s :
  Forall (fun i => (Z.to_nat i < length hw)%nat) chs ->
  exists s' evs,
    connect_map_loop chs hw s = Some (tt, s') /\
    trace s' = trace s ++ evs /\
    sema s' = sema s /\
    shmem s' = shmem s /\
    Forall is_ioremap evs.
Proof.
  intros Hchs. revert s. induction Hchs as [|i chs Hi _ IH]; intros s.
  - exists s, []. rewrite app_nil_r. repeat split. constructor.
  - apply lookup_lt_is_Some_2 in Hi. destruct Hi as [a Ha].
    cbn [connect_map_loop]. rewrite Ha. unfold ioremap.
    rewrite !bind_run. simpl. rewrite !bind_run, perform_run. simpl.
    rewrite bind_run. unfold modify.
    match goal with
    | |- context [connect_map_loop chs hw ?s1] =>
        destruct (IH s1) as (s' & evs & Hrun & Htr & Hsema & Hmem & Hio)
    end.
    eexists s', (_ :: evs). rewrite Hrun. split; [reflexivity|].
    simpl in Htr, Hsema, Hmem. rewrite Htr, Hsema, Hmem, <- app_assoc.
    repeat split. constructor; [|assumption].
    eexists _, _, _. reflexivity.
Qed.

Lemma bpmp_connect_spec s :
  exists r mapped s' evs,
    bpmp_connect s = Some (r, s') /\
    trace s' = trace s ++ evs /\
    sema s' = sema s /\
    shmem s' = shmem s /\
    connect_outcome s r mapped evs /\
    (mapped = false -> channel_area s' = channel_area s).
Proof.
  unfold bpmp_connect, of_iomap. rewrite bind_run, perform_run. simpl.
  set (a := env (trace s) (OfIomap 0)).
  destruct (Z.eqb_spec a 0) as [Ha|Ha].
  { rewrite Ha. exists (- ENODEV), false. eexists _, _.
    split; [reflexivity|]. repeat split. constructor. }
  rewrite bind_run, perform_run. simpl.
  set (p := env (trace s ++ [(OfIomap 0, a)]) (OfIomap 1)).
  rewrite bind_run. unfold modify.
  destruct (Z.eqb_spec p 0) as [Hp|Hp].
  { rewrite Hp. exists (- ENODEV), false. eexists _, _.
    split; [reflexivity|]. simpl. rewrite <- app_assoc. repeat split.
    constructor. exact Ha. }
  rewrite bind_run. unfold gets. simpl.
  destruct (Z.eqb_spec (__raw_readl STA_OFFSET (sema s)) 0) as [Hsta|Hsta].
  { exists (- ENODEV), false. eexists _, _.
    split; [reflexivity|]. simpl. rewrite <- app_assoc. repeat split.
    constructor; assumption. }
  rewrite bind_run.
  match goal with
  | |- context [connect_query_loop ?at' ?chs ?hw ?s1] =>
      destruct (connect_query_loop_spec at' chs hw s1)
        as (o & qevs & hw' & Hrun & Hq & Hlen)
  end.
  rewrite Hrun. destruct o as [i|].
  - exists (- EFAULT), false. eexists _, _.
    split; [reflexivity|]. simpl. rewrite <- !app_assoc. repeat split.
    econstructor; eassumption.
  - rewrite bind_run.
    match goal with
    | |- context [connect_map_loop ?chs hw' ?s1] =>
        destruct (connect_map_loop_spec chs hw' s1)
          as (s' & mevs & Hmap & Htr & Hsema & Hmem & Hio)
    end.
    { apply Forall_forall. intros i Hi. apply elem_of_seqZ in Hi.
      rewrite Hlen, length_replicate. lia. }
    rewrite Hmap.
    exists 0, true, s', ((OfIomap 0, a) :: (OfIomap 1, p) :: qevs ++ mevs).
    split; [reflexivity|]. simpl in Htr, Hsema, Hmem.
    rewrite Htr, Hsema, Hmem, <- !app_assoc. repeat split.
    + constructor; assumption.
    + discriminate.
Qed.

Lemma seqZ_of_nat m n : seqZ m n = seqZ m (Z.of_nat (Z.to_nat n)).
Proof. unfold seqZ. rewrite Nat2Z.id. reflexivity. Qed.

Lemma seqZ_succ m (n : nat) :
  seqZ m (Z.of_nat (S n)) = m :: seqZ (m + 1) (Z.of_nat n).
Proof.
  rewrite seqZ_cons by lia. f_equal. f_equal; lia.
Qed.

Lemma queries_failed_in atomics chs evs f :
  queries atomics chs evs (Some f) -> f ∈ chs.
Proof.
  intros H. remember (Some f) as o eqn:Ho.
  induction H as [|i chs|i chs a evs o _ _ IH].
  - discriminate.
  - injection Ho as ->. apply list_elem_of_here.
  - apply list_elem_of_further, IH, Ho.
Qed.

Lemma queries_zero_read atomics chs evs o base off :
  queries atomics chs evs o ->
  (Readl base off, 0) ∈ evs ->
  exists f, o = Some f /\ base = atomics /\ off = RESULT_OFFSET f.
Proof.
  induction 1 as [|i chs|i chs a evs o Ha _ IH]; intros Hin.
  - apply elem_of_nil in Hin. destruct Hin.
  - unfold query_events in Hin. rewrite !elem_of_cons in Hin.
    destruct Hin as [Hin | [Hin | Hin]].
    + discriminate.
    + injection Hin as -> ->. exists i. auto.
    + apply elem_of_nil in Hin. destruct Hin.
  - unfold query_events in Hin. simpl in Hin. rewrite !elem_of_cons in Hin.
    destruct Hin as [Hin | [Hin | Hin]].
    + discriminate.
    + injection Hin as _ _ Hz. congruence.
    + apply IH, Hin.
Qed.

(** Every call of the first loop of [bpmp_connect] over the channels
    [m .. m + n - 1] is the trigger write or the result read of a channel
    [k] of that range, and of a channel no later than the failing one. *)
Lemma queries_seqZ atomics (n : nat) m evs o e :
  queries atomics (seqZ m (Z.of_nat n)) evs o ->
  e ∈ evs ->
  exists k v,
    m <= k < m + Z.of_nat n /\
    (forall f, o = Some f -> k <= f) /\
    (e = (Writel (trigger_word k) atomics TRIGGER_OFFSET, 0) \/
     e = (Readl atomics (RESULT_OFFSET k), v)).
Proof.
  revert m evs o. induction n as [|n IH]; intros m evs o Hq Hin.
  - change (seqZ m (Z.of_nat 0)) with (@nil Z) in Hq. inversion Hq; subst.
    apply elem_of_nil in Hin. destruct Hin.
  - rewrite seqZ_succ in Hq.
    inversion Hq as [|i chs Hi Hevs Ho|i chs a evs' o' Ha Hq' Hi Hevs Ho]; subst.
    + exists m, 0. split; [lia|]. split; [intros f [= <-]; lia|].
      unfold query_events in Hin. rewrite !elem_of_cons in Hin.
      destruct Hin as [-> | [-> | Hin]]; auto.
      apply elem_of_nil in Hin. destruct Hin.
    + apply elem_of_app in Hin. destruct Hin as [Hin|Hin].
      * exists m, a. split; [lia|]. split.
        { intros f ->. apply queries_failed_in, elem_of_seqZ in Hq'. lia. }
        unfold query_events in Hin. rewrite !elem_of_cons in Hin.
        destruct Hin as [-> | [-> | Hin]]; auto.
        apply elem_of_nil in Hin. destruct Hin.
      * destruct (IH _ _ _ Hq' Hin) as (k & v & Hk & Hf & He).
        exists k, v. split; [lia|]. auto.
Qed.

Lemma queries_channels atomics n evs o e :
  queries atomics (seqZ 0 n) evs o ->
  e ∈ evs ->
  exists k v,
    0 <= k /\
    (forall f, o = Some f -> k <= f) /\
    (e = (Writel (trigger_word k) atomics TRIGGER_OFFSET, 0) \/
     e = (Readl atomics (RESULT_OFFSET k), v)).
Proof.
  rewrite seqZ_of_nat. intros Hq Hin.
  destruct (queries_seqZ _ _ _ _ _ _ Hq Hin) as (k & v & Hk & Hf & He).
  exists k, v. split; [lia|]. auto.
Qed.

Lemma trigger_word_channel k :
  0 <= k < 2 ^ 16 -> Z.shiftr (trigger_word k) 16 = k.
Proof.
  intros Hk. unfold trigger_word, u32, TRIGGER_ID_SHIFT, TRIGGER_CMD_GET.
  rewrite <- Z.land_ones by lia.
  rewrite Z.shiftr_land, Z.shiftr_lor, Z.shiftr_shiftl_l, Z.sub_diag by lia.
  rewrite Z.shiftl_0_r. change (Z.shiftr 4 16) with 0.
  change (Z.shiftr (Z.ones 32) 16) with (Z.ones 16).
  rewrite Z.lor_0_r, Z.land_ones by lia. apply Z.mod_small. lia.
Qed.

Ltac split_elem H :=
  first
    [ apply elem_of_nil in H; destruct H
    | apply elem_of_cons in H; destruct H as [H|H]; [|split_elem H]
    | idtac ].

Lemma queries_no_ioremap atomics n evs o phys size p :
  queries atomics (seqZ 0 n) evs o -> (Ioremap phys size, p) ∉ evs.
Proof.
  intros Hq Hin.
  destruct (queries_channels _ _ _ _ _ Hq Hin) as (k & v & _ & _ & [He|He]);
    discriminate.
Qed.

Lemma queries_no_of_iomap atomics n evs o k v :
  queries atomics (seqZ 0 n) evs o -> (OfIomap k, v) ∉ evs.
Proof.
  intros Hq Hin.
  destruct (queries_channels _ _ _ _ _ Hq Hin) as (k' & v' & _ & _ & [He|He]);
    discriminate.
Qed.

(** C7: during [bpmp_connect], if the address query of a channel [i] reads
    zero, then connect returns the error [- EFAULT], it has issued neither a
    result read nor a trigger write for any later channel [j], it has mapped
    no channel area ([ioremap] is never called and [channel_area] is as it
    was). *)
Theorem connect_fails_fast s atomics i :
  (Readl atomics (RESULT_OFFSET i), 0) ∈ events_of bpmp_connect s ->
  result_of bpmp_connect s = Some (- EFAULT) /\
  (forall j, i < j ->
     (forall base v,
        (Readl base (RESULT_OFFSET j), v) ∉ events_of bpmp_connect s) /\
     (j < 2 ^ 16 ->
      forall base v,
        (Writel (trigger_word j) base TRIGGER_OFFSET, v) ∉
        events_of bpmp_connect s)) /\
  (forall phys size p, (Ioremap phys size, p) ∉ events_of bpmp_connect s) /\
  exists s',
    state_of bpmp_connect s = Some s' /\
    channel_area s' = channel_area s /\ shmem s' = shmem s.
Proof.
  destruct (bpmp_connect_spec s)
    as (r & mapped & s' & evs & Hrun & Htr & _ & Hmem & Hout & Hmapped).
  rewrite (events_of_run _ _ _ _ _ Hrun Htr), (result_of_run _ _ _ _ Hrun).
  unfold state_of. rewrite Hrun. simpl. intros Hin.
  destruct Hout as [|a Ha|a p Ha Hp Hsta|a p qevs f Ha Hp Hsta Hq
                   |a p qevs mevs Ha Hp Hsta Hq Hio].
  - split_elem Hin; discriminate.
  - split_elem Hin; discriminate.
  - split_elem Hin; discriminate.
  - split_elem Hin; try discriminate.
    destruct (queries_zero_read _ _ _ _ _ _ Hq Hin) as (f' & [= <-] & -> & Hoff).
    assert (i = f) as -> by (unfold RESULT_OFFSET in Hoff; lia).
    split; [reflexivity|]. split; [|split].
    + intros j Hj. split.
      * intros base v Hj'. split_elem Hj'; try discriminate.
        destruct (queries_channels _ _ _ _ _ Hq Hj')
          as (k & v' & Hk & Hf & [He|He]); [discriminate|].
        injection He as _ Hoff' _. specialize (Hf f eq_refl).
        unfold RESULT_OFFSET in Hoff'. lia.
      * intros Hj16 base v Hj'. split_elem Hj'; try discriminate.
        destruct (queries_channels _ _ _ _ _ Hq Hj')
          as (k & v' & Hk & Hf & [He|He]); [|discriminate].
        injection He as Hw _ _. specialize (Hf f eq_refl).
        apply (f_equal (fun w => Z.shiftr w 16)) in Hw.
        rewrite !trigger_word_channel in Hw by lia. lia.
    + intros phys size p' Hio. split_elem Hio; try discriminate.
      exact (queries_no_ioremap _ _ _ _ _ _ _ Hq Hio).
    + exists s'. auto.
  - exfalso. split_elem Hin; try discriminate.
    apply elem_of_app in Hin. destruct Hin as [Hin|Hin].
    + destruct (queries_zero_read _ _ _ _ _ _ Hq Hin) as (f' & Hf & _).
      discriminate.
    + rewrite Forall_forall in Hio. destruct (Hio _ Hin) as (? & ? & ? & He).
      discriminate.
Qed.

(** C8 (amended): [bpmp_connect] always returns, and its failure modes
    surface as two error values, not three: a missing register window
    (either [of_iomap] returning NULL) and an all-zero status word both
    return [- ENODEV]; a channel address reading zero returns [- EFAULT],
    which differs from [- ENODEV] as the errno constants [ENODEV] and
    [EFAULT] differ. *)
Theorem connect_error_values s :
  ENODEV <> EFAULT ->
  exists r,
    result_of bpmp_connect s = Some r /\
    ((exists k, (OfIomap k, 0) ∈ events_of bpmp_connect s) -> r = - ENODEV) /\
    ((forall k, (OfIomap k, 0) ∉ events_of bpmp_connect s) ->
     __raw_readl STA_OFFSET (sema s) = 0 -> r = - ENODEV) /\
    ((exists atomics i,
        (Readl atomics (RESULT_OFFSET i), 0) ∈ events_of bpmp_connect s) ->
     r = - EFAULT /\ r <> - ENODEV).
Proof.
  intros Herrno.
  destruct (bpmp_connect_spec s)
    as (r & mapped & s' & evs & Hrun & Htr & _ & _ & Hout & _).
  rewrite (events_of_run _ _ _ _ _ Hrun Htr), (result_of_run _ _ _ _ Hrun).
  exists r. split; [reflexivity|].
  destruct Hout as [|a Ha|a p Ha Hp Hsta|a p qevs f Ha Hp Hsta Hq
                   |a p qevs mevs Ha Hp Hsta Hq Hio].
  - split; [reflexivity|]. split; [reflexivity|].
    intros (at' & i & Hin). split_elem Hin; discriminate.
  - split; [reflexivity|]. split; [reflexivity|].
    intros (at' & i & Hin). split_elem Hin; discriminate.
  - split; [reflexivity|]. split; [reflexivity|].
    intros (at' & i & Hin). split_elem Hin; discriminate.
  - split; [|split].
    + intros (k & Hin). exfalso. split_elem Hin; try congruence.
      exact (queries_no_of_iomap _ _ _ _ _ _ Hq Hin).
    + intros _ Hz. congruence.
    + intros _. split; [reflexivity | lia].
  - split; [|split].
    + intros (k & Hin). exfalso. split_elem Hin; try congruence.
      apply elem_of_app in Hin. destruct Hin as [Hin|Hin].
      * exact (queries_no_of_iomap _ _ _ _ _ _ Hq Hin).
      * rewrite Forall_forall in Hio. destruct (Hio _ Hin) as (? & ? & ? & He).
        discriminate.
    + intros _ Hz. congruence.
    + intros (at' & i & Hin). exfalso. split_elem Hin; try discriminate.
      apply elem_of_app in Hin. destruct Hin as [Hin|Hin].
      * destruct (queries_zero_read _ _ _ _ _ _ Hq Hin) as (f' & Hf & _).
        discriminate.
      * rewrite Forall_forall in Hio. destruct (Hio _ Hin) as (? & ? & ? & He).
        discriminate.
Qed.

(** ** Doorbell interrupts *)

Lemma init_irq_loop_spec cpus s :
  exists r evs,
    init_irq_loop cpus s = Some (r, add_events evs s) /\
    registrations cpus evs r.
Proof.
  revert s. induction cpus as [|i cpus IH]; intros s.
  - exists 0, []. rewrite add_events_nil. split; [reflexivity | constructor].
  - cbn [init_irq_loop]. unfold tegra_register_doorbell_handler.
    rewrite bind_run, perform_run.
    generalize (answer (RegisterDoorbellHandler i doorbell_handler
                          (PER_CPU_IB_CH i))
                  (env (trace s)
                     (RegisterDoorbellHandler i doorbell_handler
                        (PER_CPU_IB_CH i)))).
    intros r. destruct (Z.eqb_spec r 0) as [->|Hr]; cbn [negb].
    + destruct (IH (add_events
                      [(RegisterDoorbellHandler i doorbell_handler
                          (PER_CPU_IB_CH i), 0)] s))
        as (r' & evs & Hrun & Hreg).
      exists r',
        ((RegisterDoorbellHandler i doorbell_handler (PER_CPU_IB_CH i), 0)
           :: evs).
      rewrite Hrun, add_events_app.
      split; [reflexivity | constructor; assumption].
    + exists r,
        [(RegisterDoorbellHandler i doorbell_handler (PER_CPU_IB_CH i), r)].
      split; [reflexivity | constructor; assumption].
Qed.

Lemma doorbell_handler_run h i s :
  0 <= i < 4 ->
  run_handler h (PER_CPU_IB_CH i) s =
  Some (tt, add_events [(HandleIrq (8 + i), 0)] s).
Proof.
  intros Hi. destruct h.
  assert (i = 0 \/ i = 1 \/ i = 2 \/ i = 3) as [-> | [-> | [-> | ->]]] by lia;
    reflexivity.
Qed.

(** C9: [bpmp_init_irq] always returns.  If a doorbell handler registration
    for a CPU [i] returns a nonzero [e], then [bpmp_init_irq] returns [e] and
    has attempted no registration for any CPU [j > i].  If every
    registration made returns zero, then it returns 0 and has registered, for
    the CPUs 0 to 3 in turn, the handler with the inbound channel index
    [8 + i] as its context.  The handler registered for CPU [i], run on its
    context, dispatches to [bpmp_handle_irq (8 + i)]. *)
Theorem init_irq_registrations s :
  exists r,
    result_of bpmp_init_irq s = Some r /\
    (forall i h d e,
       (RegisterDoorbellHandler i h d, e) ∈ events_of bpmp_init_irq s ->
       e <> 0 ->
       r = e /\
       forall j h' d' e',
         i < j ->
         (RegisterDoorbellHandler j h' d', e') ∉ events_of bpmp_init_irq s) /\
    ((forall i h d e,
        (RegisterDoorbellHandler i h d, e) ∈ events_of bpmp_init_irq s ->
        e = 0) ->
     r = 0 /\
     events_of bpmp_init_irq s =
     [(RegisterDoorbellHandler 0 doorbell_handler 8, 0);
      (RegisterDoorbellHandler 1 doorbell_handler 9, 0);
      (RegisterDoorbellHandler 2 doorbell_handler 10, 0);
      (RegisterDoorbellHandler 3 doorbell_handler 11, 0)]) /\
    (forall i h d e,
       (RegisterDoorbellHandler i h d, e) ∈ events_of bpmp_init_irq s ->
       d = 8 + i /\
       forall s0,
         run_handler h d s0 = Some (tt, add_events [(HandleIrq (8 + i), 0)] s0)).
Proof.
  destruct (init_irq_loop_spec (seqZ 0 4) s) as (r & evs & Hrun & Hreg).
  fold bpmp_init_irq in Hrun.
  rewrite (events_of_run _ _ _ _ evs Hrun eq_refl), (result_of_run _ _ _ _ Hrun).
  exists r. split; [reflexivity|].
  change (seqZ 0 4) with [0; 1; 2; 3] in Hreg.
  repeat match goal with
         | H : registrations _ _ _ |- _ => inversion H; subst; clear H
         end.
  all: split; [|split].
  all: try (intros i h d e Hin Hne; split_elem Hin; simplify_eq;
            (split; [reflexivity|]);
            intros j h' d' e' Hj Hin'; split_elem Hin'; simplify_eq; lia).
  all: try (intros Hall;
            first [ split; reflexivity
                  | exfalso;
                    match goal with
                    | Hne : ?e <> 0 |- _ =>
                        apply Hne;
                        eapply (Hall _ _ _ e);
                        repeat first [ apply list_elem_of_here
                                     | apply list_elem_of_further ]
                    end ]).
  all: intros i h d e Hin; split_elem Hin; simplify_eq;
    (split; [reflexivity|]); intros s0; apply doorbell_handler_run; lia.
Qed.

(** * Further properties *)

(** ** The status word under the token transitions *)

Lemma testbit_slice sta n :
  0 <= n -> Z.testbit sta n = Z.testbit (slice sta (n / 2)) (n mod 2).
Proof.
  intros Hn. pose proof (Z.mod_pos_bound n 2 ltac:(lia)) as Hm.
  rewrite slice_testbit by lia.
  replace (n mod 2 + n / 2 * 2) with n by (rewrite (Z.div_mod n 2) at 1; lia).
  destruct (Z.ltb_spec (n mod 2) 2); [|lia]. rewrite andb_true_r. reflexivity.
Qed.

Lemma slice_ext a b :
  (forall c, 0 <= c -> slice a c = slice b c) -> a = b.
Proof.
  intros H. apply Z.bits_inj'. intros n Hn.
  rewrite (testbit_slice a), (testbit_slice b) by lia.
  rewrite H by (apply Z.div_pos; lia). reflexivity.
Qed.

Lemma slice_run_op_own o sta :
  0 <= op_channel o < 16 ->
  slice (run_op o sta) (op_channel o) = slice_step o (slice sta (op_channel o)).
Proof.
  intros Ho. destruct o as [ch|ch flags|ch]; simpl in *.
  - rewrite slice_signal_slave by lia. destruct (decide (ch = ch)); [reflexivity|lia].
  - rewrite slice_ack_master by lia. destruct (decide (ch = ch)); [reflexivity|lia].
  - rewrite slice_free_master by lia. destruct (decide (ch = ch)); [reflexivity|lia].
Qed.

Lemma u32_range x : 0 <= u32 x < 2 ^ 32.
Proof. apply Z.mod_pos_bound. lia. Qed.

Lemma testbit_high x n : 0 <= x < 2 ^ 32 -> 32 <= n -> Z.testbit x n = false.
Proof.
  intros Hx Hn. rewrite <- (Z.mod_small x (2 ^ 32)) by lia.
  apply Z.mod_pow2_bits_high. lia.
Qed.

Lemma range_of_bits x :
  0 <= x -> (forall n, 32 <= n -> Z.testbit x n = false) -> 0 <= x < 2 ^ 32.
Proof.
  intros Hx Hbits. assert (x = x mod 2 ^ 32) as ->.
  { apply Z.bits_inj'. intros n Hn. destruct (Z.lt_ge_cases n 32).
    - rewrite Z.mod_pow2_bits_low by lia. reflexivity.
    - rewrite Z.mod_pow2_bits_high, Hbits by lia. reflexivity. }
  apply Z.mod_pos_bound. lia.
Qed.

Lemma raw_writel_range val off sta :
  0 <= sta < 2 ^ 32 -> 0 <= __raw_writel val off sta < 2 ^ 32.
Proof.
  intros Hsta. pose proof (u32_range val) as Hval. unfold __raw_writel.
  destruct (off =? SET_OFFSET); [|destruct (off =? CLR_OFFSET)].
  - apply range_of_bits; [apply Z.lor_nonneg; lia|].
    intros n Hn. rewrite Z.lor_spec, !testbit_high by lia. reflexivity.
  - apply range_of_bits; [apply Z.ldiff_nonneg; lia|].
    intros n Hn. rewrite Z.ldiff_spec, !testbit_high by lia. reflexivity.
  - exact Hsta.
Qed.

(** X1: a token transition on channel [ch] changes no bit of the status
    word other than the two bits of that channel. *)
Theorem token_op_frame o sta n :
  0 <= op_channel o < 16 ->
  0 <= n -> n <> op_channel o * 2 -> n <> op_channel o * 2 + 1 ->
  Z.testbit (run_op o sta) n = Z.testbit sta n.
Proof.
  intros Ho Hn H0 H1. rewrite (testbit_slice (run_op o sta)), (testbit_slice sta) by lia.
  pose proof (Z.mod_pos_bound n 2 ltac:(lia)) as Hm.
  pose proof (Z.div_mod n 2 ltac:(lia)) as Hdm.
  rewrite slice_run_op; [reflexivity | lia | apply Z.div_pos; lia | lia].
Qed.

(** X2: the bit modification rule of the source.  [bpmp_signal_slave] and
    [bpmp_free_master] only clear bits: no bit of the status word is set
    after them that was not set before.  [bpmp_ack_master] is the exception:
    whatever the flags, the high bit of the channel's slice is set after
    it. *)
Theorem bit_modification_rule ch flags sta :
  0 <= ch < 16 ->
  (forall n, Z.testbit (bpmp_signal_slave ch sta) n = true ->
             Z.testbit sta n = true) /\
  (forall n, Z.testbit (bpmp_free_master ch sta) n = true ->
             Z.testbit sta n = true) /\
  Z.testbit (bpmp_ack_master ch flags sta) (ch * 2 + 1) = true.
Proof.
  intros Hch. split; [|split].
  - intros n. unfold bpmp_signal_slave, __raw_writel. simpl.
    rewrite Z.ldiff_spec. intros H. apply andb_true_iff in H. tauto.
  - intros n. unfold bpmp_free_master, __raw_writel. simpl.
    rewrite Z.ldiff_spec. intros H. apply andb_true_iff in H. tauto.
  - rewrite testbit_slice by lia.
    replace ((ch * 2 + 1) / 2) with ch by (apply (Z.div_unique _ 2 ch 1); lia).
    replace ((ch * 2 + 1) mod 2) with 1 by (apply (Z.mod_unique _ 2 ch 1); lia).
    rewrite slice_ack_master by lia. destruct (decide (ch = ch)); [|lia].
    destruct (Z.land flags DO_ACK =? 0); reflexivity.
Qed.

(** X3: the status word stays a 32-bit value under any sequence of token
    transitions, on any channel numbers. *)
Theorem status_word_stays_u32 ops sta :
  0 <= sta < 2 ^ 32 -> 0 <= run_ops ops sta < 2 ^ 32.
Proof.
  revert sta. induction ops as [|o ops IH]; intros sta Hsta; [exact Hsta|].
  unfold run_ops in *. simpl. apply IH.
  destruct o as [ch|ch flags|ch]; simpl.
  - apply raw_writel_range, Hsta.
  - unfold bpmp_ack_master. destruct (negb _); repeat apply raw_writel_range; exact Hsta.
  - apply raw_writel_range, Hsta.
Qed.

(** X4: every token transition is idempotent: doing it twice leaves the
    status word the first one left. *)
Theorem token_op_idempotent o sta :
  run_op o (run_op o sta) = run_op o sta.
Proof.
  destruct o as [ch|ch flags|ch]; simpl;
    unfold bpmp_signal_slave, bpmp_free_master, bpmp_ack_master, __raw_writel;
    simpl; try destruct (negb _);
    apply Z.bits_inj'; intros n Hn;
    rewrite ?Z.ldiff_spec, ?Z.lor_spec, ?Z.ldiff_spec, ?Z.lor_spec;
    repeat match goal with
           | |- context [Z.testbit ?a n] => destruct (Z.testbit a n)
           end; reflexivity.
Qed.

(** X5: transitions on two different channels commute. *)
Theorem token_ops_commute o1 o2 sta :
  0 <= op_channel o1 < 16 -> 0 <= op_channel o2 < 16 ->
  op_channel o1 <> op_channel o2 ->
  run_op o1 (run_op o2 sta) = run_op o2 (run_op o1 sta).
Proof.
  intros H1 H2 Hne. apply slice_ext. intros c Hc.
  destruct (decide (c = op_channel o1)) as [->|Hc1].
  - rewrite slice_run_op_own, (slice_run_op o2), (slice_run_op o2), slice_run_op_own
      by (lia || congruence). reflexivity.
  - destruct (decide (c = op_channel o2)) as [->|Hc2].
    + rewrite (slice_run_op o1), slice_run_op_own, slice_run_op_own, (slice_run_op o1)
        by (lia || congruence). reflexivity.
    + rewrite !slice_run_op by (lia || congruence). reflexivity.
Qed.

(** X6: what the decode functions return after a transition, whatever the
    token was before.  After [bpmp_signal_slave] the channel reads as slave
    signalled and not as master free.  After [bpmp_free_master] it never
    reads as acked; it reads as master free exactly when it read as master
    free or as acked before, and as slave signalled otherwise. *)
Theorem decode_after_transition ch sta :
  0 <= ch < 16 ->
  bpmp_slave_signalled ch (bpmp_signal_slave ch sta) = true /\
  bpmp_master_free ch (bpmp_signal_slave ch sta) = false /\
  bpmp_master_acked ch (bpmp_free_master ch sta) = false /\
  bpmp_master_free ch (bpmp_free_master ch sta) =
    bpmp_master_free ch sta || bpmp_master_acked ch sta /\
  bpmp_slave_signalled ch (bpmp_free_master ch sta) =
    negb (bpmp_master_free ch sta || bpmp_master_acked ch sta).
Proof.
  intros Hch. unfold bpmp_slave_signalled, bpmp_master_free, bpmp_master_acked.
  unfold SL_SIGL, MA_FREE, MA_ACKD. rewrite !ch_sta_pattern_eqb by lia.
  rewrite slice_signal_slave, slice_free_master by lia.
  destruct (decide (ch = ch)); [|lia].
  pose proof (slice_range sta ch) as Hr.
  assert (slice sta ch = 0 \/ slice sta ch = 1 \/ slice sta ch = 2 \/
          slice sta ch = 3) as [-> | [-> | [-> | ->]]] by lia;
    repeat split; reflexivity.
Qed.

(** X7: the outbound handoff is a loss-free cycle on the whole status word.
    From a word in which the token of [ch] is MASTER_FREE,
    [bpmp_signal_slave], then the two set-only writes of the slave (the
    SL_QUED bit, then the MA_ACKD bits), then [bpmp_free_master] give back
    exactly the word the cycle started from; before the last step the
    channel reads as acked. *)
Theorem outbound_cycle_restores_word ch sta :
  0 <= ch < 16 ->
  token_is MA_FREE ch sta ->
  let queued := __raw_writel (SL_QUED ch) SET_OFFSET (bpmp_signal_slave ch sta) in
  let acked := __raw_writel (MA_ACKD ch) SET_OFFSET queued in
  token_is SL_QUED ch queued /\
  bpmp_master_acked ch acked = true /\
  bpmp_free_master ch acked = sta.
Proof.
  intros Hch Hfree queued acked. apply MA_FREE_slice in Hfree; [|lia].
  assert (Hq : forall c, 0 <= c ->
            slice queued c = if decide (c = ch) then 1 else slice sta c).
  { intros c Hc. unfold queued, SL_QUED. rewrite slice_set, slice_signal_slave by lia.
    destruct (decide (c = ch)); reflexivity. }
  split; [|split].
  - apply SL_QUED_slice; [lia|]. rewrite Hq by lia.
    destruct (decide (ch = ch)); [reflexivity|lia].
  - unfold bpmp_master_acked, MA_ACKD. rewrite ch_sta_pattern_eqb by lia.
    unfold acked. rewrite slice_ack_set by lia.
    destruct (decide (ch = ch)); [reflexivity|lia].
  - apply slice_ext. intros c Hc. unfold acked.
    rewrite slice_free_master, slice_ack_set, Hq by lia.
    destruct (decide (c = ch)) as [->|]; [rewrite Hfree|]; reflexivity.
Qed.

(** ** Returning data within the capacity *)









(** ** Connect: what it calls, what it leaves alone, what success gives *)





(** X13: when [bpmp_connect] returns [- ENODEV] (an errno other than 0 and
    [EFAULT]), it has not started the handshake: it made at most the two
    [of_iomap] calls, no access to the atomics window, and [channel_area] is
    as it was. *)
Theorem connect_enodev_before_handshake s :
  ENODEV <> 0 -> ENODEV <> EFAULT ->
  result_of bpmp_connect s = Some (- ENODEV) ->
  Forall is_of_iomap (events_of bpmp_connect s) /\
  (length (events_of bpmp_connect s) <= 2)%nat /\
  exists s',
    state_of bpmp_connect s = Some s' /\ channel_area s' = channel_area s.
Proof.
  intros Hnz Hne.
  destruct (bpmp_connect_spec s)
    as (r & mapped & s' & evs & Hrun & Htr & _ & _ & Hout & Hmapped).
  rewrite (events_of_run _ _ _ _ _ Hrun Htr), (result_of_run _ _ _ _ Hrun).
  unfold state_of. rewrite Hrun. simpl. intros [= Hr].
  assert (Hiomap : forall index p, is_of_iomap (OfIomap index, p))
    by (intros index p; exists index, p; reflexivity).
  destruct Hout as [|a Ha|a p Ha Hp Hsta|a p qevs f Ha Hp Hsta Hq
                   |a p qevs mevs Ha Hp Hsta Hq Hio]; try lia.
  - split; [repeat (constructor; [apply Hiomap|]); constructor|].
    split; [simpl; lia|]. exists s'. auto.
  - split; [repeat (constructor; [apply Hiomap|]); constructor|].
    split; [simpl; lia|]. exists s'. auto.
  - split; [repeat (constructor; [apply Hiomap|]); constructor|].
    split; [simpl; lia|]. exists s'. auto.
Qed.

Lemma elem_of_fmap_to_nat (i : Z) (chs : list Z) :
  0 <= i -> Forall (fun j => 0 <= j) chs ->
  Z.to_nat i ∈ Z.to_nat <$> chs -> i ∈ chs.
Proof.
  intros Hi Hchs Hin. apply list_elem_of_fmap in Hin. destruct Hin as (j & Hj & Hin).
  rewrite Forall_forall in Hchs. specialize (Hchs j Hin).
  assert (i = j) as -> by lia. exact Hin.
Qed.

(** The first loop of [bpmp_connect], with what it leaves in
    [channel_hwaddr] when every channel resolves. *)
Lemma connect_query_loop_hwaddr atomics chs hw s :
  NoDup chs ->
  Forall (fun i => 0 <= i /\ (Z.to_nat i < length hw)%nat) chs ->
  exists (o : option Z) evs hw',
    connect_query_loop atomics chs hw s =
    Some (match o with Some _ => inl (- EFAULT) | None => inr hw' end,
          add_events evs s) /\
    (o = None ->
     length hw' = length hw /\
     (forall i, i ∈ chs ->
        exists a, a <> 0 /\ hw' !! Z.to_nat i = Some a /\
                  (Readl atomics (RESULT_OFFSET i), a) ∈ evs) /\
     (forall k, k ∉ Z.to_nat <$> chs -> hw' !! k = hw !! k)).
Proof.
  intros Hnd. revert hw s. induction Hnd as [|i chs Hni Hnd IH]; intros hw s Hchs.
  - exists None, [], hw. rewrite add_events_nil. split; [reflexivity|].
    intros _. split; [reflexivity|]. split; [|reflexivity].
    intros i Hi. apply elem_of_nil in Hi. destruct Hi.
  - apply Forall_cons in Hchs. destruct Hchs as [[Hi Hlt] Hchs].
    destruct (bpmp_channel_area_run atomics i s) as [a Ha].
    cbn [connect_query_loop]. rewrite bind_run, Ha.
    destruct (Z.eqb_spec a 0) as [->|Hnz].
    + exists (Some i), (query_events atomics i 0), hw.
      split; [reflexivity | discriminate].
    + destruct (IH (<[Z.to_nat i := a]> hw)
                  (add_events (query_events atomics i a) s))
        as (o & evs & hw' & Hrun & Hok).
      { eapply Forall_impl; [exact Hchs|]. intros j [Hj Hjl].
        rewrite length_insert. auto. }
      exists o, (query_events atomics i a ++ evs), hw'.
      rewrite Hrun, add_events_app. split; [reflexivity|].
      intros Ho. destruct (Hok Ho) as (Hlen & Hall & Hrest).
      assert (Hi' : Z.to_nat i ∉ Z.to_nat <$> chs).
      { intros Hin. apply Hni, elem_of_fmap_to_nat; [lia| |exact Hin].
        eapply Forall_impl; [exact Hchs|]. intros j [Hj _]. exact Hj. }
      split; [rewrite Hlen; apply length_insert|]. split.
      * intros j Hj. apply elem_of_cons in Hj. destruct Hj as [->|Hj].
        -- exists a. split; [exact Hnz|]. split.
           ++ rewrite (Hrest _ Hi'). apply list_lookup_insert_eq. exact Hlt.
           ++ apply elem_of_app. left. unfold query_events.
              apply list_elem_of_further, list_elem_of_here.
        -- destruct (Hall j Hj) as (b & Hb & Hlook & Hev).
           exists b. split; [exact Hb|]. split; [exact Hlook|].
           apply elem_of_app. right. exact Hev.
      * intros k Hk. rewrite fmap_cons, not_elem_of_cons in Hk.
        destruct Hk as [Hki Hk]. rewrite (Hrest k Hk).
        apply list_lookup_insert_ne. congruence.
Qed.

(** The second loop of [bpmp_connect], with what it leaves in
    [channel_area]. *)
Lemma connect_map_loop_areas chs hw s :
  NoDup chs ->
  Forall (fun i => 0 <= i /\ (Z.to_nat i < length hw)%nat /\
                   (Z.to_nat i < length (channel_area s))%nat) chs ->
  exists s' evs,
    connect_map_loop chs hw s = Some (tt, s') /\
    trace s' = trace s ++ evs /\
    arb_sema s' = arb_sema s /\
    length (channel_area s') = length (channel_area s) /\
    (forall i, i ∈ chs ->
       exists a p, hw !! Z.to_nat i = Some a /\
                   (Ioremap a 0x80, p) ∈ evs /\
                   channel_area s' !! Z.to_nat i = Some (ChannelData p p)) /\
    (forall k, k ∉ Z.to_nat <$> chs ->
       channel_area s' !! k = channel_area s !! k).
Proof.
  intros Hnd. revert s. induction Hnd as [|i chs Hni Hnd IH]; intros s Hchs.
  - exists s, []. rewrite app_nil_r. repeat split.
    intros i Hi. apply elem_of_nil in Hi. destruct Hi.
  - apply Forall_cons in Hchs. destruct Hchs as [(Hi & Hlt & Hlt') Hchs].
    destruct (lookup_lt_is_Some_2 _ _ Hlt) as [a Ha].
    cbn [connect_map_loop]. rewrite Ha. unfold ioremap.
    rewrite !bind_run. simpl. rewrite !bind_run, perform_run. simpl.
    rewrite bind_run. unfold modify.
    set (p := env (trace s) (Ioremap a 128)).
    match goal with
    | |- context [connect_map_loop chs hw ?s1] =>
        destruct (IH s1) as (s' & evs & Hrun & Htr & Harb & Hlen & Hall & Hrest)
    end.
    { eapply Forall_impl; [exact Hchs|]. intros j (Hj & Hjl & Hjl'). simpl.
      rewrite length_insert. auto. }
    exists s', ((Ioremap a 128, p) :: evs). rewrite Hrun.
    simpl in Htr, Harb, Hlen, Hrest. rewrite length_insert in Hlen.
    split; [reflexivity|]. split; [rewrite Htr, <- app_assoc; reflexivity|].
    split; [exact Harb|]. split; [exact Hlen|].
    assert (Hi' : Z.to_nat i ∉ Z.to_nat <$> chs).
    { intros Hin. apply Hni, elem_of_fmap_to_nat; [lia| |exact Hin].
      eapply Forall_impl; [exact Hchs|]. intros j [Hj _]. exact Hj. }
    split.
    + intros j Hj. apply elem_of_cons in Hj. destruct Hj as [->|Hj].
      * exists a, p. split; [exact Ha|]. split; [apply list_elem_of_here|].
        rewrite (Hrest _ Hi'). apply list_lookup_insert_eq. exact Hlt'.
      * destruct (Hall j Hj) as (b & q & Hb & Hev & Hlook).
        exists b, q. split; [exact Hb|]. split; [|exact Hlook].
        apply list_elem_of_further. exact Hev.
    + intros k Hk. rewrite ?fmap_cons in Hk. apply not_elem_of_cons in Hk.
      destruct Hk as [Hki Hk]. rewrite (Hrest k Hk).
      apply list_lookup_insert_ne. congruence.
Qed.

(** X14: when [bpmp_connect] returns 0 (the errno numbers being nonzero) on
    a [channel_area] array of at least [NR_CHANNELS] entries, then for every
    channel [i] below [NR_CHANNELS] it read a nonzero address [a] from the
    result register of [i], mapped [a] with [ioremap(a, 0x80)], and left the
    pointer [p] that returned in both [channel_area[i].ib] and
    [channel_area[i].ob]: the two descriptors of a channel are one.  The
    [arb_sema] pointer is the nonzero one [of_iomap(1)] returned. *)
Theorem connect_success_maps_all s :
  ENODEV <> 0 -> EFAULT <> 0 ->
  (Z.to_nat NR_CHANNELS <= length (channel_area s))%nat ->
  result_of bpmp_connect s = Some 0 ->
  exists s' atomics,
    state_of bpmp_connect s = Some s' /\
    arb_sema s' <> 0 /\
    (OfIomap 1, arb_sema s') ∈ events_of bpmp_connect s /\
    length (channel_area s') = length (channel_area s) /\
    forall i, 0 <= i < NR_CHANNELS ->
      exists a p,
        a <> 0 /\
        (Readl atomics (RESULT_OFFSET i), a) ∈ events_of bpmp_connect s /\
        (Ioremap a 0x80, p) ∈ events_of bpmp_connect s /\
        channel_area s' !! Z.to_nat i = Some (ChannelData p p).
Proof.
  intros Hnodev Hfault Hlen.
  unfold result_of, state_of, events_of, bpmp_connect, of_iomap.
  rewrite bind_run, perform_run. simpl.
  set (a := env (trace s) (OfIomap 0)).
  destruct (Z.eqb_spec a 0) as [Ha|Ha].
  { simpl. intros [= H]. lia. }
  rewrite bind_run, perform_run. simpl.
  set (p := env (trace s ++ [(OfIomap 0, a)]) (OfIomap 1)).
  rewrite bind_run. unfold modify.
  destruct (Z.eqb_spec p 0) as [Hp|Hp].
  { simpl. intros [= H]. lia. }
  rewrite bind_run. unfold gets. simpl.
  destruct (Z.eqb_spec (__raw_readl STA_OFFSET (sema s)) 0) as [Hsta|Hsta].
  { simpl. intros [= H]. lia. }
  rewrite bind_run.
  assert (Hseq : Forall (fun i => 0 <= i /\
                   (Z.to_nat i < Z.to_nat NR_CHANNELS)%nat) (seqZ 0 NR_CHANNELS)).
  { apply Forall_forall. intros i Hi. apply elem_of_seqZ in Hi. lia. }
  match goal with
  | |- context [connect_query_loop ?at' ?chs ?hw ?s1] =>
      destruct (connect_query_loop_hwaddr at' chs hw s1)
        as (o & qevs & hw' & Hrun & Hok)
  end.
  { apply NoDup_seqZ. }
  { rewrite length_replicate. exact Hseq. }
  rewrite Hrun. destruct o as [f|].
  { simpl. intros [= H]. lia. }
  destruct (Hok eq_refl) as (Hlen' & Hhw & _).
  rewrite length_replicate in Hlen'.
  rewrite bind_run.
  match goal with
  | |- context [connect_map_loop ?chs hw' ?s1] =>
      destruct (connect_map_loop_areas chs hw' s1)
        as (s' & mevs & Hmap & Htr & Harb & Hclen & Hareas & _)
  end.
  { apply NoDup_seqZ. }
  { eapply Forall_impl; [exact Hseq|]. intros i [Hi Hlt]. simpl.
    rewrite Hlen'. lia. }
  rewrite Hmap. simpl. intros _.
  simpl in Htr, Harb, Hclen. rewrite Htr, <- !app_assoc, drop_app_length.
  exists s', a. split; [reflexivity|]. rewrite Harb.
  split; [exact Hp|]. split.
  { simpl. apply list_elem_of_further, list_elem_of_here. }
  split; [exact Hclen|].
  intros i Hi. assert (Hin : i ∈ seqZ 0 NR_CHANNELS) by (apply elem_of_seqZ; lia).
  destruct (Hhw i Hin) as (b & Hb & Hlook & Hev).
  destruct (Hareas i Hin) as (b' & q & Hlook' & Hev' & Harea).
  rewrite Hlook in Hlook'. injection Hlook' as <-.
  exists b, q. split; [exact Hb|]. simpl. split; [|split; [|exact Harea]].
  - do 2 apply list_elem_of_further. apply elem_of_app. left. exact Hev.
  - do 2 apply list_elem_of_further. apply elem_of_app. right. exact Hev'.
Qed.

(** X15: [bpmp_channel_area] makes exactly two accesses, the trigger write
    then the read of the channel's result register, and returns the 32-bit
    value read.  For a channel below 2^16 the trigger word carries the
    channel in its bits 16 and up and [TRIGGER_CMD_GET] in its low 16 bits,
    so the words of two channels differ. *)
Theorem channel_area_query atomics ch s :
  0 <= ch < 2 ^ 16 ->
  exists w a,
    bpmp_channel_area atomics ch s =
    Some (a, add_events [(Writel w atomics TRIGGER_OFFSET, 0);
                         (Readl atomics (RESULT_OFFSET ch), a)] s) /\
    0 <= a < 2 ^ 32 /\
    Z.shiftr w TRIGGER_ID_SHIFT = ch /\
    Z.land w 0xffff = TRIGGER_CMD_GET.
Proof.
  intros Hch. exists (trigger_word ch).
  eexists. split; [|split; [|split]].
  - unfold bpmp_channel_area, writel, readl, trigger_word.
    rewrite !bind_run, perform_run. simpl. rewrite !bind_run, perform_run. simpl.
    rewrite add_events_app. reflexivity.
  - apply u32_range.
  - apply trigger_word_channel. exact Hch.
  - unfold trigger_word, u32, TRIGGER_ID_SHIFT, TRIGGER_CMD_GET.
    rewrite <- Z.land_ones by lia. rewrite <- Z.land_assoc.
    change (Z.land (Z.ones 32) 65535) with (Z.ones 16).
    rewrite Z.land_lor_distr_l. change (Z.land 4 (Z.ones 16)) with 4.
    rewrite Z.land_ones, Z.shiftl_mul_pow2 by lia.
    rewrite Z.mod_mul by lia. reflexivity.
Qed.

(** ** The outbound channel of a CPU and interrupt set-up *)

(** X16: [bpmp_ob_channel] asks for the CPU number once, changes nothing, and
    on a CPU 0 to 3 returns that CPU's atomic channel [CPU0_OB_CH0 + cpu],
    which is no thread channel ([bpmp_thread_ch_index] gives -1) and no
    inbound channel; thread and inbound channels differ as well. *)
Theorem ob_channel_is_atomic s :
  exists cpu ch,
    bpmp_ob_channel s = Some (ch, add_events [(SmpProcessorId, cpu)] s) /\
    (0 <= cpu <= 3 ->
     ch = CPU0_OB_CH0 + cpu /\
     bpmp_thread_ch_index ch = -1 /\
     forall j k, 0 <= j <= 3 -> 0 <= k <= 3 ->
       ch <> bpmp_thread_ch j /\
       ch <> PER_CPU_IB_CH k /\
       bpmp_thread_ch j <> PER_CPU_IB_CH k).
Proof.
  unfold bpmp_ob_channel, smp_processor_id. rewrite bind_run, perform_run.
  cbn [answer]. generalize (s32 (env (trace s) SmpProcessorId)). intros cpu.
  exists cpu, (s32 (cpu + CPU0_OB_CH0)). split; [reflexivity|].
  intros Hcpu.
  assert (cpu = 0 \/ cpu = 1 \/ cpu = 2 \/ cpu = 3) as Hc by lia.
  split; [destruct Hc as [-> | [-> | [-> | ->]]]; reflexivity|].
  split; [destruct Hc as [-> | [-> | [-> | ->]]]; reflexivity|].
  intros j k Hj Hk.
  assert (j = 0 \/ j = 1 \/ j = 2 \/ j = 3) as Hj' by lia.
  assert (k = 0 \/ k = 1 \/ k = 2 \/ k = 3) as Hk' by lia.
  destruct Hc as [-> | [-> | [-> | ->]]];
    destruct Hj' as [-> | [-> | [-> | ->]]];
    destruct Hk' as [-> | [-> | [-> | ->]]];
    repeat split; discriminate.
Qed.

(** X17: [bpmp_init_irq] always returns, leaves the status word, the shared
    memory, [channel_area] and [arb_sema] as they were, and calls nothing
    but the doorbell registration: its calls are the first one to four of
    the registrations for the CPUs 0, 1, 2, 3 in that order, and the value
    it returns is the one its last registration returned. *)
Theorem init_irq_calls s :
  exists r s' c,
    bpmp_init_irq s = Some (r, s') /\
    sema s' = sema s /\
    shmem s' = shmem s /\
    channel_area s' = channel_area s /\
    arb_sema s' = arb_sema s /\
    (fst <$> events_of bpmp_init_irq s) `prefix_of` all_registrations /\
    last (events_of bpmp_init_irq s) = Some (c, r).
Proof.
  destruct (init_irq_loop_spec (seqZ 0 4) s) as (r & evs & Hrun & Hreg).
  fold bpmp_init_irq in Hrun.
  rewrite (events_of_run _ _ _ _ evs Hrun eq_refl).
  change (seqZ 0 4) with [0; 1; 2; 3] in Hreg.
  change all_registrations with
    ((fun i => RegisterDoorbellHandler i doorbell_handler (PER_CPU_IB_CH i))
       <$> [0; 1; 2; 3]).
  repeat match goal with
         | H : registrations _ _ _ |- _ => inversion H; subst; clear H
         end.
  all: eexists _, _, _; split; [exact Hrun|]; do 4 (split; [reflexivity|]).
  all: split; [simpl; eexists; reflexivity | reflexivity].
Qed.

End Mail.

(** * The model run on the concrete configuration *)

Abbreviation cfg_connect :=
  (bpmp_connect cfg_NR_CHANNELS cfg_ENODEV cfg_EFAULT) (only parsing).
Abbreviation cfg_return_data :=
  (bpmp_return_data cfg_DO_ACK cfg_RING_DOORBELL cfg_MSG_DATA_MIN_SZ)
  (only parsing).
Abbreviation cfg_ack_master := (bpmp_ack_master cfg_DO_ACK) (only parsing).

(** ** Sample runs *)

Example connect_succeeds :
  result_of (cfg_connect env_ready) (boot all_free) = Some 0 /\
  (channel_area <$> state_of (cfg_connect env_ready) (boot all_free))
  = Some ((fun ch => ChannelData (addr_all ch) (addr_all ch)) <$> seqZ 0 12) /\
  length (events_of (cfg_connect env_ready) (boot all_free)) = 38%nat.
Proof. vm_compute. auto. Qed.

Example connect_stops_at_channel_2 :
  events_of (cfg_connect env_missing_2) (boot all_free) =
  [(OfIomap 0, 0x1000); (OfIomap 1, 0x2000)] ++
  query_events 0x1000 0 (addr_all 0) ++
  query_events 0x1000 1 (addr_all 1) ++
  query_events 0x1000 2 0.
Proof. vm_compute. reflexivity. Qed.

Example init_irq_stops_at_cpu_2 :
  result_of (bpmp_init_irq (env_device addr_all (reg_fail 2 (-22))))
    (boot all_free) = Some (-22) /\
  events_of (bpmp_init_irq (env_device addr_all (reg_fail 2 (-22))))
    (boot all_free)
  = [(RegisterDoorbellHandler 0 doorbell_handler 8, 0);
     (RegisterDoorbellHandler 1 doorbell_handler 9, 0);
     (RegisterDoorbellHandler 2 doorbell_handler 10, -22)].
Proof. vm_compute. auto. Qed.

(** Returning three bytes on channel 8 with only [RING_DOORBELL] in the
    inbound flags: the descriptor (shared by [ib] and [ob]) gets the code and
    the bytes, the token goes to MASTER_FREE and the doorbell is rung once. *)
Example return_data_immediate :
  events_of (cfg_return_data env_ready 8 5 [1; 2; 3] 3) (connected 0 2)
  = [(RingDoorbell CPU_OB_DOORBELL, 0)] /\
  (sema <$> state_of (cfg_return_data env_ready 8 5 [1; 2; 3] 3) (connected 0 2))
  = Some (MA_FREE 8) /\
  (state_of (cfg_return_data env_ready 8 5 [1; 2; 3] 3) (connected 0 2)
     ≫= fun s => shmem s !! 0x9000)
  = Some (MbData 5 2 ([1; 2; 3] ++ replicate 117 0)).
Proof. vm_compute. auto. Qed.

(** The same with [DO_ACK] alone in the inbound flags: the token stays at
    MASTER_ACKED and no doorbell is rung. *)
Example return_data_deferred :
  events_of (cfg_return_data env_ready 8 5 [1; 2; 3] 3) (connected 0 1) = [] /\
  (sema <$> state_of (cfg_return_data env_ready 8 5 [1; 2; 3] 3) (connected 0 1))
  = Some (MA_ACKD 8).
Proof. vm_compute. auto. Qed.

(** ** The token protocol on channel 4 *)

(** C1, as first stated, fails: channel 4 at MASTER_FREE is not at
    SLAVE_QUEUED after [bpmp_signal_slave]. *)
Lemma signal_slave_not_queued :
  0 <= 4 < 16 /\
  token_is MA_FREE 4 all_free /\
  ~ token_is SL_QUED 4 (bpmp_signal_slave 4 all_free).
Proof.
  split; [lia|]. split; [reflexivity|]. unfold token_is. vm_compute. discriminate.
Qed.

Lemma signal_slave_clears_token_witness :
  (0 <= 4 < 16 /\ token_is MA_FREE 4 all_free) /\
  token_is SL_SIGL 4 (bpmp_signal_slave 4 all_free).
Proof.
  assert (H4 : 0 <= 4 < 16) by lia.
  assert (Hfree : token_is MA_FREE 4 all_free) by reflexivity.
  split; [exact (conj H4 Hfree)|].
  exact (signal_slave_clears_token 4 all_free H4 Hfree).
Defined.

Lemma full_cycle_round_trip_witness :
  (0 <= 4 < 16 /\ token_is MA_FREE 4 all_free /\
   peer_sets SL_SIGL 4 (bpmp_signal_slave 4 all_free) signalled_4) /\
  token_is MA_FREE 4
    (bpmp_free_master 4 (cfg_ack_master 4 cfg_DO_ACK signalled_4)) /\
  forall c, 0 <= c < 16 -> c <> 4 ->
    bpmp_ch_sta c (bpmp_free_master 4 (cfg_ack_master 4 cfg_DO_ACK signalled_4))
    = bpmp_ch_sta c all_free.
Proof.
  assert (H4 : 0 <= 4 < 16) by lia.
  assert (Hfree : token_is MA_FREE 4 all_free) by reflexivity.
  assert (Hpeer : peer_sets SL_SIGL 4 (bpmp_signal_slave 4 all_free) signalled_4).
  { split; [reflexivity|]. intros c _ _. reflexivity. }
  split; [exact (conj H4 (conj Hfree Hpeer))|].
  exact (full_cycle_round_trip cfg_DO_ACK 4 cfg_DO_ACK all_free signalled_4
           H4 Hfree Hpeer).
Defined.

Lemma ack_policy_witness :
  (0 <= 4 < 16 /\ token_is SL_SIGL 4 signalled_4 /\
   Forall (fun o => 0 <= op_channel o < 16 /\ op_channel o <> 4) other_ops) /\
  token_is MA_FREE 4 (cfg_ack_master 4 0 signalled_4) /\
  token_is MA_ACKD 4 (cfg_ack_master 4 cfg_DO_ACK signalled_4) /\
  token_is MA_ACKD 4
    (run_ops cfg_DO_ACK other_ops (cfg_ack_master 4 cfg_DO_ACK signalled_4)) /\
  token_is MA_FREE 4
    (bpmp_free_master 4
       (run_ops cfg_DO_ACK other_ops (cfg_ack_master 4 cfg_DO_ACK signalled_4))).
Proof.
  assert (H4 : 0 <= 4 < 16) by lia.
  assert (Hsig : token_is SL_SIGL 4 signalled_4) by reflexivity.
  assert (Hops : Forall (fun o => 0 <= op_channel o < 16 /\ op_channel o <> 4)
                   other_ops).
  { repeat constructor; simpl; lia. }
  split; [exact (conj H4 (conj Hsig Hops))|]. split.
  - exact (ack_policy cfg_DO_ACK 4 0 signalled_4 other_ops H4 Hsig Hops).
  - exact (ack_policy cfg_DO_ACK 4 cfg_DO_ACK signalled_4 other_ops H4 Hsig Hops).
Defined.

Lemma token_decode_partition_witness :
  0 <= 4 < 16 /\
  length (List.filter (fun pat => bpmp_ch_sta 4 all_free =? u32 (pat 4))
            [SL_SIGL; SL_QUED; MA_FREE; MA_ACKD]) = 1%nat /\
  (length (List.filter id [bpmp_master_free 4 all_free;
                           bpmp_slave_signalled 4 all_free;
                           bpmp_master_acked 4 all_free]) <= 1)%nat /\
  forall sta',
    Z.testbit all_free (4 * 2) = Z.testbit sta' (4 * 2) ->
    Z.testbit all_free (4 * 2 + 1) = Z.testbit sta' (4 * 2 + 1) ->
    bpmp_master_free 4 all_free = bpmp_master_free 4 sta' /\
    bpmp_slave_signalled 4 all_free = bpmp_slave_signalled 4 sta' /\
    bpmp_master_acked 4 all_free = bpmp_master_acked 4 sta'.
Proof.
  assert (H4 : 0 <= 4 < 16) by lia.
  split; [assumption|]. exact (token_decode_partition 4 all_free H4).
Defined.

Lemma ack_set_absorbing_witness :
  0 <= 4 < 16 /\
  token_is MA_ACKD 4 (__raw_writel (MA_ACKD 4) SET_OFFSET all_free) /\
  forall flags,
    Z.land flags cfg_DO_ACK <> 0 ->
    cfg_ack_master 4 flags all_free =
    __raw_writel (MA_ACKD 4) SET_OFFSET all_free.
Proof.
  assert (H4 : 0 <= 4 < 16) by lia.
  split; [assumption|]. exact (ack_set_absorbing cfg_DO_ACK 4 all_free H4).
Defined.

(** ** Returning data, connect and interrupt set-up on the configuration *)

Lemma return_data_oversize_witness :
  121 > cfg_MSG_DATA_MIN_SZ /\
  exists s',
    cfg_return_data env_ready 8 5 (replicate 121 7) 121 (connected 0 2)
    = Some (tt, s') /\
    shmem s' = shmem (connected 0 2) /\
    channel_area s' = channel_area (connected 0 2) /\
    sema s' = sema (connected 0 2) /\
    events_of (cfg_return_data env_ready 8 5 (replicate 121 7) 121)
      (connected 0 2) = [(WarnOn 1, 0)] /\
    forall db v,
      (RingDoorbell db, v) ∉
      events_of (cfg_return_data env_ready 8 5 (replicate 121 7) 121)
        (connected 0 2).
Proof.
  assert (Hsz : 121 > cfg_MSG_DATA_MIN_SZ) by (unfold cfg_MSG_DATA_MIN_SZ; lia).
  split; [assumption|].
  exact (return_data_oversize cfg_DO_ACK cfg_RING_DOORBELL cfg_MSG_DATA_MIN_SZ
           env_ready 8 5 (replicate 121 7) 121 (connected 0 2) Hsz).
Defined.

Lemma connect_fails_fast_witness :
  (Readl 0x1000 (RESULT_OFFSET 2), 0) ∈
  events_of (cfg_connect env_missing_2) (boot all_free) /\
  result_of (cfg_connect env_missing_2) (boot all_free) = Some (- cfg_EFAULT) /\
  (forall j, 2 < j ->
     (forall base v,
        (Readl base (RESULT_OFFSET j), v) ∉
        events_of (cfg_connect env_missing_2) (boot all_free)) /\
     (j < 2 ^ 16 ->
      forall base v,
        (Writel (trigger_word j) base TRIGGER_OFFSET, v) ∉
        events_of (cfg_connect env_missing_2) (boot all_free))) /\
  (forall phys size p,
     (Ioremap phys size, p) ∉
     events_of (cfg_connect env_missing_2) (boot all_free)) /\
  exists s',
    state_of (cfg_connect env_missing_2) (boot all_free) = Some s' /\
    channel_area s' = channel_area (boot all_free) /\
    shmem s' = shmem (boot all_free).
Proof.
  assert (Hin : (Readl 0x1000 (RESULT_OFFSET 2), 0) ∈
                events_of (cfg_connect env_missing_2) (boot all_free)).
  { vm_compute.
    repeat first [ apply list_elem_of_here | apply list_elem_of_further ]. }
  split; [assumption|].
  exact (connect_fails_fast cfg_NR_CHANNELS cfg_ENODEV cfg_EFAULT
           env_missing_2 (boot all_free) 0x1000 2 Hin).
Defined.

(** C8, as first stated, fails: with no register window and with an
    all-zero status word [bpmp_connect] returns the same value. *)
Lemma connect_no_device_not_live_same :
  events_of (cfg_connect env_no_device) (boot all_free) = [(OfIomap 0, 0)] /\
  events_of (cfg_connect env_ready) (boot 0)
  = [(OfIomap 0, 0x1000); (OfIomap 1, 0x2000)] /\
  __raw_readl STA_OFFSET (sema (boot 0)) = 0 /\
  result_of (cfg_connect env_no_device) (boot all_free) = Some (- cfg_ENODEV) /\
  result_of (cfg_connect env_ready) (boot 0) = Some (- cfg_ENODEV) /\
  result_of (cfg_connect env_no_device) (boot all_free)
  = result_of (cfg_connect env_ready) (boot 0).
Proof. vm_compute. auto 7. Qed.

Lemma connect_error_values_witness :
  cfg_ENODEV <> cfg_EFAULT /\
  exists r,
    result_of (cfg_connect env_missing_2) (boot all_free) = Some r /\
    ((exists k,
        (OfIomap k, 0) ∈ events_of (cfg_connect env_missing_2) (boot all_free)) ->
     r = - cfg_ENODEV) /\
    ((forall k,
        (OfIomap k, 0) ∉ events_of (cfg_connect env_missing_2) (boot all_free)) ->
     __raw_readl STA_OFFSET (sema (boot all_free)) = 0 -> r = - cfg_ENODEV) /\
    ((exists atomics i,
        (Readl atomics (RESULT_OFFSET i), 0) ∈
        events_of (cfg_connect env_missing_2) (boot all_free)) ->
     r = - cfg_EFAULT /\ r <> - cfg_ENODEV).
Proof.
  assert (Herrno : cfg_ENODEV <> cfg_EFAULT) by discriminate.
  split; [assumption|].
  exact (connect_error_values cfg_NR_CHANNELS cfg_ENODEV cfg_EFAULT
           env_missing_2 (boot all_free) Herrno).
Defined.

(** ** The further properties on the configuration *)

Lemma token_op_frame_witness :
  (0 <= op_channel (AckMaster 4 0) < 16 /\ 0 <= 3 /\
   3 <> op_channel (AckMaster 4 0) * 2 /\
   3 <> op_channel (AckMaster 4 0) * 2 + 1) /\
  Z.testbit (run_op cfg_DO_ACK (AckMaster 4 0) all_free) 3 =
  Z.testbit all_free 3.
Proof.
  assert (Ho : 0 <= op_channel (AckMaster 4 0) < 16) by (simpl; lia).
  assert (Hn : 0 <= 3) by lia.
  assert (H0 : 3 <> op_channel (AckMaster 4 0) * 2) by (simpl; lia).
  assert (H1 : 3 <> op_channel (AckMaster 4 0) * 2 + 1) by (simpl; lia).
  split; [exact (conj Ho (conj Hn (conj H0 H1)))|].
  exact (token_op_frame cfg_DO_ACK (AckMaster 4 0) all_free 3 Ho Hn H0 H1).
Defined.

Lemma bit_modification_rule_witness :
  0 <= 4 < 16 /\
  (forall n, Z.testbit (bpmp_signal_slave 4 all_free) n = true ->
             Z.testbit all_free n = true) /\
  (forall n, Z.testbit (bpmp_free_master 4 all_free) n = true ->
             Z.testbit all_free n = true) /\
  Z.testbit (cfg_ack_master 4 0 all_free) (4 * 2 + 1) = true.
Proof.
  assert (H4 : 0 <= 4 < 16) by lia.
  split; [assumption|].
  exact (bit_modification_rule cfg_DO_ACK 4 0 all_free H4).
Defined.

Lemma status_word_stays_u32_witness :
  0 <= all_free < 2 ^ 32 /\
  0 <= run_ops cfg_DO_ACK other_ops all_free < 2 ^ 32.
Proof.
  assert (Hsta : 0 <= all_free < 2 ^ 32) by (unfold all_free; lia).
  split; [assumption|].
  exact (status_word_stays_u32 cfg_DO_ACK other_ops all_free Hsta).
Defined.

Lemma token_ops_commute_witness :
  (0 <= op_channel (SignalSlave 4) < 16 /\
   0 <= op_channel (AckMaster 8 0) < 16 /\
   op_channel (SignalSlave 4) <> op_channel (AckMaster 8 0)) /\
  run_op cfg_DO_ACK (SignalSlave 4) (run_op cfg_DO_ACK (AckMaster 8 0) all_free) =
  run_op cfg_DO_ACK (AckMaster 8 0) (run_op cfg_DO_ACK (SignalSlave 4) all_free).
Proof.
  assert (H1 : 0 <= op_channel (SignalSlave 4) < 16) by (simpl; lia).
  assert (H2 : 0 <= op_channel (AckMaster 8 0) < 16) by (simpl; lia).
  assert (Hne : op_channel (SignalSlave 4) <> op_channel (AckMaster 8 0))
    by (simpl; lia).
  split; [exact (conj H1 (conj H2 Hne))|].
  exact (token_ops_commute cfg_DO_ACK (SignalSlave 4) (AckMaster 8 0) all_free
           H1 H2 Hne).
Defined.

Lemma decode_after_transition_witness :
  0 <= 4 < 16 /\
  bpmp_slave_signalled 4 (bpmp_signal_slave 4 all_free) = true /\
  bpmp_master_free 4 (bpmp_signal_slave 4 all_free) = false /\
  bpmp_master_acked 4 (bpmp_free_master 4 all_free) = false /\
  bpmp_master_free 4 (bpmp_free_master 4 all_free) =
    bpmp_master_free 4 all_free || bpmp_master_acked 4 all_free /\
  bpmp_slave_signalled 4 (bpmp_free_master 4 all_free) =
    negb (bpmp_master_free 4 all_free || bpmp_master_acked 4 all_free).
Proof.
  assert (H4 : 0 <= 4 < 16) by lia.
  split; [assumption|]. exact (decode_after_transition 4 all_free H4).
Defined.

Lemma outbound_cycle_restores_word_witness :
  (0 <= 4 < 16 /\ token_is MA_FREE 4 all_free) /\
  token_is SL_QUED 4 (__raw_writel (SL_QUED 4) SET_OFFSET signalled_4) /\
  bpmp_master_acked 4
    (__raw_writel (MA_ACKD 4) SET_OFFSET
       (__raw_writel (SL_QUED 4) SET_OFFSET signalled_4)) = true /\
  bpmp_free_master 4
    (__raw_writel (MA_ACKD 4) SET_OFFSET
       (__raw_writel (SL_QUED 4) SET_OFFSET signalled_4)) = all_free.
Proof.
  assert (H4 : 0 <= 4 < 16) by lia.
  assert (Hfree : token_is MA_FREE 4 all_free) by reflexivity.
  split; [exact (conj H4 Hfree)|].
  exact (outbound_cycle_restores_word 4 all_free H4 Hfree).
Defined.





Lemma connect_enodev_before_handshake_witness :
  (cfg_ENODEV <> 0 /\ cfg_ENODEV <> cfg_EFAULT /\
   result_of (cfg_connect env_ready) (boot 0) = Some (- cfg_ENODEV)) /\
  Forall is_of_iomap (events_of (cfg_connect env_ready) (boot 0)) /\
  (length (events_of (cfg_connect env_ready) (boot 0)) <= 2)%nat /\
  exists s',
    state_of (cfg_connect env_ready) (boot 0) = Some s' /\
    channel_area s' = channel_area (boot 0).
Proof.
  assert (Hnz : cfg_ENODEV <> 0) by discriminate.
  assert (Hne : cfg_ENODEV <> cfg_EFAULT) by discriminate.
  assert (Hr : result_of (cfg_connect env_ready) (boot 0) = Some (- cfg_ENODEV))
    by (vm_compute; reflexivity).
  split; [exact (conj Hnz (conj Hne Hr))|].
  exact (connect_enodev_before_handshake cfg_NR_CHANNELS cfg_ENODEV cfg_EFAULT
           env_ready (boot 0) Hnz Hne Hr).
Defined.

Lemma connect_success_maps_all_witness :
  (cfg_ENODEV <> 0 /\ cfg_EFAULT <> 0 /\
   (Z.to_nat cfg_NR_CHANNELS <= length (channel_area (boot all_free)))%nat /\
   result_of (cfg_connect env_ready) (boot all_free) = Some 0) /\
  exists s' atomics,
    state_of (cfg_connect env_ready) (boot all_free) = Some s' /\
    arb_sema s' <> 0 /\
    (OfIomap 1, arb_sema s') ∈ events_of (cfg_connect env_ready) (boot all_free) /\
    length (channel_area s') = length (channel_area (boot all_free)) /\
    forall i, 0 <= i < cfg_NR_CHANNELS ->
      exists a p,
        a <> 0 /\
        (Readl atomics (RESULT_OFFSET i), a) ∈
        events_of (cfg_connect env_ready) (boot all_free) /\
        (Ioremap a 0x80, p) ∈
        events_of (cfg_connect env_ready) (boot all_free) /\
        channel_area s' !! Z.to_nat i = Some (ChannelData p p).
Proof.
  assert (Hnodev : cfg_ENODEV <> 0) by discriminate.
  assert (Hfault : cfg_EFAULT <> 0) by discriminate.
  assert (Hlen : (Z.to_nat cfg_NR_CHANNELS
                  <= length (channel_area (boot all_free)))%nat)
    by (vm_compute; repeat constructor).
  assert (Hr : result_of (cfg_connect env_ready) (boot all_free) = Some 0)
    by (vm_compute; reflexivity).
  split; [exact (conj Hnodev (conj Hfault (conj Hlen Hr)))|].
  exact (connect_success_maps_all cfg_NR_CHANNELS cfg_ENODEV cfg_EFAULT
           env_ready (boot all_free) Hnodev Hfault Hlen Hr).
Defined.

Lemma channel_area_query_witness :
  0 <= 5 < 2 ^ 16 /\
  exists w a,
    bpmp_channel_area env_ready 0x1000 5 (boot all_free) =
    Some (a, add_events [(Writel w 0x1000 TRIGGER_OFFSET, 0);
                         (Readl 0x1000 (RESULT_OFFSET 5), a)]
               (boot all_free)) /\
    0 <= a < 2 ^ 32 /\
    Z.shiftr w TRIGGER_ID_SHIFT = 5 /\
    Z.land w 0xffff = TRIGGER_CMD_GET.
Proof.
  assert (H5 : 0 <= 5 < 2 ^ 16) by lia.
  split; [assumption|].
  exact (channel_area_query env_ready 0x1000 5 (boot all_free) H5).
Defined.
